(** * SQLite query generator: a shallow embedding and its properties

    The development follows [src/dialects/sqlite/query-generator.js].
    JavaScript strings are modelled as [string]: a sequence of code units,
    each of which fits one [ascii] character.  Objects used as ordered maps
    (the attribute hashes) are association lists holding the own enumerable
    properties in the order [for ... in], [Object.keys] and [Object.values]
    visit them. *)

From Stdlib Require Import String Ascii List Bool Arith ZArith Lia DecimalString.
Import ListNotations.
Local Open Scope string_scope.
Local Open Scope nat_scope.

(** ** JavaScript string primitives *)

Module Js.

(** [s.startsWith(p)] *)
Definition startsWith (s p : string) : bool := String.prefix p s.

(** [s.indexOf(p)], [None] standing for [-1]. *)
Fixpoint indexOf (s p : string) : option nat :=
  if String.prefix p s then Some 0
  else match s with
       | EmptyString => None
       | String _ s' => option_map S (indexOf s' p)
       end.

(** [s.includes(p)] *)
Definition includes (s p : string) : bool :=
  match indexOf s p with Some _ => true | None => false end.

Fixpoint take (n : nat) (s : string) : string :=
  match n, s with
  | S n', String c s' => String c (take n' s')
  | _, _ => EmptyString
  end.

Fixpoint drop (n : nat) (s : string) : string :=
  match n, s with
  | S n', String _ s' => drop n' s'
  | _, _ => s
  end.

(** [s.slice(i)] for [0 <= i]. *)
Definition sliceFrom (s : string) (i : nat) : string := drop i s.

(** [s.replace(p, r)] with a string pattern [p]: only the first
    occurrence is replaced.  The replacement texts used by the generator
    hold no [$], so no replacement pattern is expanded. *)
Definition replace (s p r : string) : string :=
  match indexOf s p with
  | Some i => take i s ++ r ++ drop (i + String.length p) s
  | None => s
  end.

(** [xs.join(sep)] *)
Definition join (sep : string) (xs : list string) : string :=
  String.concat sep xs.

(** Number of positions of [s] at which [p] starts. *)
Fixpoint countOccurrences (s p : string) : nat :=
  (if String.prefix p s then 1 else 0) +
  match s with
  | EmptyString => 0
  | String _ s' => countOccurrences s' p
  end.

(** Last code unit of a string. *)
Fixpoint lastChar (s : string) : option ascii :=
  match s with
  | EmptyString => None
  | String c EmptyString => Some c
  | String _ s' => lastChar s'
  end.

(** [s.endsWith(p)] *)
Definition endsWith (s p : string) : bool :=
  (String.length p <=? String.length s)
  && String.eqb (drop (String.length s - String.length p) s) p.

Definition lastCharIs (c : ascii) (s : string) : bool :=
  match lastChar s with
  | Some d => Ascii.eqb d c
  | None => false
  end.

(** [p] without its last character. *)
Definition withoutLast (p : string) : string := take (String.length p - 1) p.

(** [occurs p s]: [p] is a contiguous part of [s]. *)
Definition occurs (p s : string) : Prop := exists a b, s = a ++ p ++ b.

(** The ways of cutting [p] into two parts, neither of them empty. *)
Fixpoint properSplits (p : string) : list (string * string) :=
  match p with
  | EmptyString => []
  | String c p' =>
      List.app
        (match p' with
         | EmptyString => []
         | _ => [(String c EmptyString, p')]
         end)
        (map (fun ab => (String c (fst ab), snd ab)) (properSplits p'))
  end.

(** [c] is one of the code units of [s]. *)
Fixpoint hasChar (c : ascii) (s : string) : bool :=
  match s with
  | EmptyString => false
  | String d s' => Ascii.eqb d c || hasChar c s'
  end.

End Js.

(** ** Utils *)

Module Utils.

(** Modelled from the spec: [Utils.removeTicks] and [Utils.addTicks] are
    defined in the utils module, which is not among the sources at hand.
    The model follows the names used at the call sites of the generator:
    [removeTicks(s, tickChar)] deletes every occurrence of [tickChar]
    from [s] (a global replace by the empty string), and
    [addTicks(s, tickChar)] puts [tickChar] on both sides of [s] once its
    ticks are removed. *)
Fixpoint removeTicks (s : string) (tickChar : ascii) : string :=
  match s with
  | EmptyString => EmptyString
  | String c s' =>
      if Ascii.eqb c tickChar then removeTicks s' tickChar
      else String c (removeTicks s' tickChar)
  end.

Definition addTicks (s : string) (tickChar : ascii) : string :=
  String tickChar (removeTicks s tickChar ++ String tickChar EmptyString).

End Utils.

(** ** Identifier quoting *)

Definition backtick : ascii := "`"%char.

(** [quoteIdentifier(identifier, force)]: [force] is not used. *)
Definition quoteIdentifier (identifier : string) : string :=
  Utils.addTicks (Utils.removeTicks identifier backtick) backtick.

(** The decoder the specification describes for a quoted identifier: strip
    the outer quote characters, then collapse each doubled quote character
    into one.  A lone quote character in the interior is malformed. *)
Module SpecUnquote.

Fixpoint collapseDoubled (q : ascii) (s : string) : option string :=
  match s with
  | EmptyString => Some EmptyString
  | String c s' =>
      if Ascii.eqb c q then
        match s' with
        | String c' s'' =>
            if Ascii.eqb c' q
            then option_map (String q) (collapseDoubled q s'')
            else None
        | EmptyString => None
        end
      else option_map (String c) (collapseDoubled q s')
  end.

Fixpoint stripClosing (q : ascii) (s : string) : option string :=
  match s with
  | EmptyString => None
  | String c EmptyString => if Ascii.eqb c q then Some EmptyString else None
  | String c s' => option_map (String c) (stripClosing q s')
  end.

Definition stripOuter (q : ascii) (s : string) : option string :=
  match s with
  | String c s' => if Ascii.eqb c q then stripClosing q s' else None
  | EmptyString => None
  end.

Definition unquoteIdentifier (s : string) : option string :=
  match stripOuter backtick s with
  | Some body => collapseDoubled backtick body
  | None => None
  end.

End SpecUnquote.

(** ** Values *)

(** The JavaScript values the generator looks at.  Numbers are integers;
    [JsMethod] stands for an instance of [Utils.SequelizeMethod]. *)
Inductive JsValue : Type :=
| JsUndefined
| JsNull
| JsBool (b : bool)
| JsNumber (z : Z)
| JsString (s : string)
| JsMethod (source : string).

(** Truthiness, as [if (v)] tests it. *)
Definition truthy (v : JsValue) : bool :=
  match v with
  | JsUndefined | JsNull => false
  | JsBool b => b
  | JsNumber z => negb (Z.eqb z 0)
  | JsString s => negb (String.eqb s "")
  | JsMethod _ => true
  end.

Definition isUndefined (v : JsValue) : bool :=
  match v with JsUndefined => true | _ => false end.

Definition isSequelizeMethod (v : JsValue) : bool :=
  match v with JsMethod _ => true | _ => false end.

(** [`${v}`]: the text of a value inside a template literal.  An instance
    of [Utils.SequelizeMethod] is an object without a [toString] of its
    own. *)
Definition templateText (v : JsValue) : string :=
  match v with
  | JsUndefined => "undefined"
  | JsNull => "null"
  | JsBool true => "true"
  | JsBool false => "false"
  | JsNumber z => DecimalString.NilZero.string_of_int (Z.to_int z)
  | JsString s => s
  | JsMethod _ => "[object Object]"
  end.

(** ** Outcomes of fallible code *)

Inductive result (A : Type) : Type :=
| Ok (a : A)
| Throw (message : string).
Arguments Ok {A} a.
Arguments Throw {A} message.

(** ** Regular expressions of the generator *)

Module Regex.

(** [\s] restricted to one-unit characters: tab, line feed, vertical tab,
    form feed, carriage return, space and no-break space. *)
Definition isSpace (c : ascii) : bool :=
  let n := nat_of_ascii c in
  ((9 <=? n) && (n <=? 13)) || (n =? 32) || (n =? 160).

(** [\w] *)
Definition isWord (c : ascii) : bool :=
  let n := nat_of_ascii c in
  ((48 <=? n) && (n <=? 57)) || ((65 <=? n) && (n <=? 90))
  || (n =? 95) || ((97 <=? n) && (n <=? 122)).

(** [[a-z]] under the [i] flag *)
Definition isLetter (c : ascii) : bool :=
  let n := nat_of_ascii c in
  ((65 <=? n) && (n <=? 90)) || ((97 <=? n) && (n <=? 122)).

(** Characters [.] refuses: line feed and carriage return. *)
Definition isLineTerminator (c : ascii) : bool :=
  let n := nat_of_ascii c in (n =? 10) || (n =? 13).

(** Upper-casing of an ASCII letter, used to compare under the [i] flag. *)
Definition upper (c : ascii) : ascii :=
  let n := nat_of_ascii c in
  if (97 <=? n) && (n <=? 122) then ascii_of_nat (n - 32) else c.

Definition eqbNoCase (c d : ascii) : bool := Ascii.eqb (upper c) (upper d).

(** *** Patterns made of literal and optional characters *)

Inductive item : Type :=
| Lit (c : ascii)
| Opt (c : ascii).

Definition lits (s : string) : list item := map Lit (list_ascii_of_string s).

(** Length of the match of a pattern at the start of [s].  An optional
    character is taken when present (greedy); the matcher comes back to
    the empty choice when the rest of the pattern then fails. *)
Fixpoint matchItems (p : list item) (s : string) : option nat :=
  match p with
  | [] => Some 0
  | Lit c :: p' =>
      match s with
      | String d s' =>
          if Ascii.eqb d c then option_map S (matchItems p' s') else None
      | EmptyString => None
      end
  | Opt c :: p' =>
      match s with
      | String d s' =>
          if Ascii.eqb d c then
            match matchItems p' s' with
            | Some n => Some (S n)
            | None => matchItems p' s
            end
          else matchItems p' s
      | EmptyString => matchItems p' s
      end
  end.

(** [s.replace(/p/g, r)] for a pattern [p] whose matches are never empty
    (it begins with a literal) and a replacement [r] without [$].
    [skip] counts the characters of the current match still to pass. *)
Fixpoint replaceAllFrom (p : list item) (r : string) (skip : nat) (s : string)
  : string :=
  match s with
  | EmptyString => EmptyString
  | String c s' =>
      match skip with
      | S k => replaceAllFrom p r k s'
      | O =>
          match matchItems p s with
          | Some (S n) => r ++ replaceAllFrom p r n s'
          | _ => String c (replaceAllFrom p r 0 s')
          end
      end
  end.

Definition replaceAll (p : list item) (r : string) (s : string) : string :=
  replaceAllFrom p r 0 s.

Definition itemChar (i : item) : ascii :=
  match i with Lit c | Opt c => c end.

(** No item of the pattern is about the character [c]. *)
Definition freeOf (c : ascii) (p : list item) : bool :=
  forallb (fun i => negb (Ascii.eqb (itemChar i) c)) p.

(** The pattern matches at no position of [s]. *)
Fixpoint unmatched (p : list item) (s : string) : bool :=
  match matchItems p s with
  | Some _ => false
  | None =>
      match s with
      | EmptyString => true
      | String _ s' => unmatched p s'
      end
  end.

(** Wherever the pattern [p] matches in [s], the pattern [q] matches. *)
Fixpoint covered (p q : list item) (s : string) : Prop :=
  (matchItems q s = None -> matchItems p s = None)
  /\ match s with
     | EmptyString => True
     | String _ s' => covered p q s'
     end.

(** [/DEFAULT '?false'?/] and [/DEFAULT '?true'?/] *)
Definition defaultFalse : list item :=
  lits "DEFAULT " ++ [Opt "'"%char] ++ lits "false" ++ [Opt "'"%char].

Definition defaultTrue : list item :=
  lits "DEFAULT " ++ [Opt "'"%char] ++ lits "true" ++ [Opt "'"%char].

(** *** [jsonFunctionRegex]: [/^\s*(json(?:_[a-z]+){0,2})\([^)]*\)/i] *)

Fixpoint countSpaces (s : string) : nat :=
  match s with
  | String c s' => if isSpace c then S (countSpaces s') else 0
  | EmptyString => 0
  end.

Fixpoint countLetters (s : string) : nat :=
  match s with
  | String c s' => if isLetter c then S (countLetters s') else 0
  | EmptyString => 0
  end.

(** A literal compared without case. *)
Fixpoint prefixNoCase (p s : string) : bool :=
  match p, s with
  | EmptyString, _ => true
  | String c p', String d s' => eqbNoCase c d && prefixNoCase p' s'
  | String _ _, EmptyString => false
  end.

(** One [_[a-z]+] group: its length, when it matches. *)
Definition matchGroup (s : string) : option nat :=
  match s with
  | String c s' =>
      if Ascii.eqb c "_"%char then
        match countLetters s' with
        | O => None
        | S n => Some (S (S n))
        end
      else None
  | EmptyString => None
  end.

(** [(?:_[a-z]+){0,2}], greedy.  Giving a group back never helps the rest
    of the expression: what follows a shortened group is a letter or an
    underscore, never the parenthesis that must come next. *)
Definition matchGroups (s : string) : nat :=
  match matchGroup s with
  | Some n1 =>
      match matchGroup (Js.drop n1 s) with
      | Some n2 => n1 + n2
      | None => n1
      end
  | None => 0
  end.

(** [\([^)]*\)]: its length, when it matches. *)
Definition matchArguments (s : string) : option nat :=
  match s with
  | String c s' =>
      if Ascii.eqb c "("%char then
        match Js.indexOf s' ")" with
        | Some i => Some (S (S i))
        | None => None
        end
      else None
  | EmptyString => None
  end.

(** [jsonFunctionRegex.exec(s)]: the matched text [functionMatches[0]]. *)
Definition jsonFunctionRegex (s : string) : option string :=
  let w := countSpaces s in
  let s1 := Js.drop w s in
  if prefixNoCase "json" s1 then
    let g := matchGroups (Js.drop 4 s1) in
    match matchArguments (Js.drop (4 + g) s1) with
    | Some a => Some (Js.take (w + 4 + g + a) s)
    | None => None
    end
  else None.

(** *** [tokenCaptureRegex]:
    [/^\s*((?:(Q)(?:(?!\2).|\2{2})*\2)|[\s\w]+|[()+,.;-])/i], where [Q]
    is the class of the three quote characters: double quote, single
    quote and backtick. *)

Definition doubleQuote : ascii := ascii_of_nat 34.

Definition isQuote (c : ascii) : bool :=
  Ascii.eqb c doubleQuote || Ascii.eqb c "'"%char || Ascii.eqb c "`"%char.

Definition isPunctuation (c : ascii) : bool :=
  Js.hasChar c "()+,.;-".

(** [(?:(?!\2).|\2{2})*\2] after the opening quote [q]: the length taken,
    closing quote included.  The star is greedy and gives iterations back
    until a closing quote follows. *)
Fixpoint quotedRest (q : ascii) (s : string) : option nat :=
  match s with
  | EmptyString => None
  | String c s' =>
      if Ascii.eqb c q then
        match s' with
        | String c' s'' =>
            if Ascii.eqb c' q then
              match quotedRest q s'' with
              | Some n => Some (S (S n))
              | None => Some 1
              end
            else Some 1
        | EmptyString => Some 1
        end
      else if isLineTerminator c then None
      else option_map S (quotedRest q s')
  end.

Fixpoint countSpaceOrWord (s : string) : nat :=
  match s with
  | String c s' =>
      if isSpace c || isWord c then S (countSpaceOrWord s') else 0
  | EmptyString => 0
  end.

(** The three alternatives of the capturing group, tried in order at the
    start of [s]: the length of the captured token. *)
Definition matchToken (s : string) : option nat :=
  match s with
  | EmptyString => None
  | String c s' =>
      let quoted :=
        if isQuote c then option_map S (quotedRest c s') else None in
      match quoted with
      | Some n => Some n
      | None =>
          match countSpaceOrWord s with
          | S n => Some (S n)
          | O => if isPunctuation c then Some 1 else None
          end
      end
  end.

(** [\s*] followed by the group: the leading blanks are taken greedily and
    given back one at a time while the group fails. *)
Fixpoint matchAfterSpaces (k : nat) (s : string) : option (nat * string) :=
  match matchToken (Js.drop k s) with
  | Some n => Some (k + n, Js.take n (Js.drop k s))
  | None =>
      match k with
      | O => None
      | S k' => matchAfterSpaces k' s
      end
  end.

(** [tokenCaptureRegex.exec(s)]: the length of [tokenMatches[0]] and the
    captured token [tokenMatches[1]]. *)
Definition tokenCaptureRegex (s : string) : option (nat * string) :=
  matchAfterSpaces (countSpaces s) s.

End Regex.

(** ** JSON statement check *)

Record ScanState : Type := mkScan {
  currentIndex : nat;
  openingBrackets : nat;
  closingBrackets : nat;
  hasJsonFunction : bool;
  hasInvalidToken : bool
}.

Definition scanStart : ScanState := mkScan 0 0 0 false false.

(** One turn of the [while] loop: [inl] is the state at [continue], [inr]
    the state at [break]. *)
Definition scanStep (stmt : string) (st : ScanState) : ScanState + ScanState :=
  let string := Js.sliceFrom stmt (currentIndex st) in
  match Regex.jsonFunctionRegex string with
  | Some matched =>
      let paren := match Js.indexOf matched "(" with Some i => i | None => 0 end in
      inl (mkScan (currentIndex st + paren) (openingBrackets st)
                  (closingBrackets st) true (hasInvalidToken st))
  | None =>
      match Regex.tokenCaptureRegex string with
      | Some (len, capturedToken) =>
          if String.eqb capturedToken "(" then
            inl (mkScan (currentIndex st + len) (S (openingBrackets st))
                        (closingBrackets st) (hasJsonFunction st)
                        (hasInvalidToken st))
          else if String.eqb capturedToken ")" then
            inl (mkScan (currentIndex st + len) (openingBrackets st)
                        (S (closingBrackets st)) (hasJsonFunction st)
                        (hasInvalidToken st))
          else if String.eqb capturedToken ";" then
            inr (mkScan (currentIndex st) (openingBrackets st)
                        (closingBrackets st) (hasJsonFunction st) true)
          else
            inl (mkScan (currentIndex st + len) (openingBrackets st)
                        (closingBrackets st) (hasJsonFunction st)
                        (hasInvalidToken st))
      | None => inr st
      end
  end.

(** The [while] loop as a relation between the state it starts from and the
    state it ends in. *)
Inductive loopRuns (stmt : string) : ScanState -> ScanState -> Prop :=
| loop_done st :
    String.length stmt <= currentIndex st ->
    loopRuns stmt st st
| loop_break st st' :
    currentIndex st < String.length stmt ->
    scanStep stmt st = inr st' ->
    loopRuns stmt st st'
| loop_continue st st' st'' :
    currentIndex st < String.length stmt ->
    scanStep stmt st = inl st' ->
    loopRuns stmt st' st'' ->
    loopRuns stmt st st''.

(** The loop as a function, with a bound on the number of turns. *)
Fixpoint scanLoop (fuel : nat) (stmt : string) (st : ScanState) : ScanState :=
  if String.length stmt <=? currentIndex st then st
  else
    match fuel with
    | O => st
    | S fuel' =>
        match scanStep stmt st with
        | inl st' => scanLoop fuel' stmt st'
        | inr st' => st'
        end
    end.

(** The state after the loop.  Every turn that continues moves
    [currentIndex] forward, so [length stmt] turns are enough: [scan_runs]
    shows that [scan stmt] is the state in which the loop ends. *)
Definition scan (stmt : string) : ScanState :=
  scanLoop (String.length stmt) stmt scanStart.

Definition checkAfterScan (stmt : string) (st : ScanState) : result bool :=
  let hasInvalidToken :=
    hasInvalidToken st
    || negb (openingBrackets st =? closingBrackets st) in
  if hasJsonFunction st && hasInvalidToken
  then Throw ("Invalid json statement: " ++ stmt)
  else Ok (hasJsonFunction st).

(** Only a string is scanned ([typeof stmt !== 'string']). *)
Definition _checkValidJsonStatement (stmt : JsValue) : result bool :=
  match stmt with
  | JsString s => checkAfterScan s (scan s)
  | _ => Ok false
  end.

(** ** Tables and attributes *)

(** A table name object: only [tableName] and [schema] are read here. *)
Record TableObject : Type := mkTableObject {
  tableName : string;
  schema : option string;
  delimiter : option string
}.

(** A table name is a string or an object ([typeof tableName === 'object']). *)
Inductive TableName : Type :=
| TableString (name : string)
| TableObj (o : TableObject).

(** An object as an ordered map: its own enumerable properties in
    enumeration order. *)
Definition object (A : Type) : Type := list (string * A).

Definition keys {A} (o : object A) : list string := map fst o.
Definition values {A} (o : object A) : list A := map snd o.

(** [o[k] = v]: an existing property keeps its place, a new one goes last. *)
Fixpoint objSet {A} (o : object A) (k : string) (v : A) : object A :=
  match o with
  | [] => [(k, v)]
  | (k', v') :: o' =>
      if String.eqb k' k then (k, v) :: o' else (k', v') :: objSet o' k v
  end.

(** [o[k]] *)
Fixpoint objGet {A} (o : object A) (k : string) : option A :=
  match o with
  | [] => None
  | (k', v) :: o' => if String.eqb k' k then Some v else objGet o' k
  end.

(** Modelled from the spec: the caller of [removeColumnQuery] (the query
    interface, not among the sources at hand) hands over the attributes of
    the table without the removed column, that is after [delete o[k]]. *)
Definition objDelete {A} (o : object A) (k : string) : object A :=
  filter (fun kv => negb (String.eqb (fst kv) k)) o.

(** A foreign-key reference of an attribute. *)
Record References : Type := mkReferences {
  model : TableName;
  key : option string
}.

(** An attribute given as an object.  [type] is the text of
    [dataType.type.toString()]; [allowNull] is [Some false] exactly when the
    property is [false]; [unique] is [true] exactly when the property is
    [true]; [primaryKey] and [autoIncrement] are the truthiness of the
    properties. *)
Record AttributeObject : Type := mkAttributeObject {
  field : option string;
  type : string;
  allowNull : option bool;
  defaultValue : JsValue;
  unique : bool;
  primaryKey : bool;
  autoIncrement : bool;
  references : option References;
  onDelete : option string;
  onUpdate : option string
}.

(** An attribute of [attributesToSQL]: an object, or SQL text as it is. *)
Inductive Attribute : Type :=
| AttributeSql (sql : string)
| AttributeObj (o : AttributeObject).

(** A string property used as a condition: absent and empty are falsy. *)
Definition truthyString (s : option string) : option string :=
  match s with
  | Some EmptyString => None
  | other => other
  end.

(** The column an attribute stands for: [dataType.field || name]. *)
Definition columnName (entry : string * Attribute) : string :=
  match snd entry with
  | AttributeObj o =>
      match truthyString (field o) with Some f => f | None => fst entry end
  | AttributeSql _ => fst entry
  end.

(** The names of a list are all different. *)
Fixpoint distinct (names : list string) : bool :=
  match names with
  | [] => true
  | name :: rest => negb (existsb (String.eqb name) rest) && distinct rest
  end.

(** The isolation levels [Transaction.ISOLATION_LEVELS]; the transaction
    module is not among the sources at hand, so the four constants are
    taken as given. *)
Record IsolationLevels : Type := mkIsolationLevels {
  READ_UNCOMMITTED : string;
  READ_COMMITTED : string;
  REPEATABLE_READ : string;
  SERIALIZABLE : string
}.

(** Modelled from the spec: the enumeration
    {READ_UNCOMMITTED, READ_COMMITTED, REPEATABLE_READ, SERIALIZABLE} of
    the transaction module, with the SQL names of the levels as values. *)
Definition ISOLATION_LEVELS : IsolationLevels :=
  mkIsolationLevels "READ UNCOMMITTED" "READ COMMITTED" "REPEATABLE READ"
                    "SERIALIZABLE".

(** ** Boolean defaults *)

(** [sql.replace(/DEFAULT '?false'?/g, 'DEFAULT 0')
        .replace(/DEFAULT '?true'?/g, 'DEFAULT 1')] *)
Definition replaceBooleanDefaults (sql : string) : string :=
  Regex.replaceAll Regex.defaultTrue "DEFAULT 1"
    (Regex.replaceAll Regex.defaultFalse "DEFAULT 0" sql).

(** ** Isolation level *)

(** The four constants are four different values. *)
Definition levelsDistinct (levels : IsolationLevels) : bool :=
  negb (String.eqb (READ_UNCOMMITTED levels) (READ_COMMITTED levels))
  && negb (String.eqb (READ_UNCOMMITTED levels) (REPEATABLE_READ levels))
  && negb (String.eqb (READ_UNCOMMITTED levels) (SERIALIZABLE levels))
  && negb (String.eqb (READ_COMMITTED levels) (REPEATABLE_READ levels))
  && negb (String.eqb (READ_COMMITTED levels) (SERIALIZABLE levels))
  && negb (String.eqb (REPEATABLE_READ levels) (SERIALIZABLE levels)).

Definition isLevel (levels : IsolationLevels) (value : JsValue) : bool :=
  match value with
  | JsString s =>
      String.eqb s (READ_UNCOMMITTED levels)
      || String.eqb s (READ_COMMITTED levels)
      || String.eqb s (REPEATABLE_READ levels)
      || String.eqb s (SERIALIZABLE levels)
  | _ => false
  end.

(** [value === constant] for a string constant. *)
Definition strictEquals (value : JsValue) (constant : string) : bool :=
  match value with
  | JsString s => String.eqb s constant
  | _ => false
  end.

Definition setIsolationLevelQuery (levels : IsolationLevels) (value : JsValue)
  : result string :=
  if strictEquals value (REPEATABLE_READ levels) then
    Ok "-- SQLite is not able to choose the isolation level REPEATABLE READ."
  else if strictEquals value (READ_UNCOMMITTED levels) then
    Ok "PRAGMA read_uncommitted = ON;"
  else if strictEquals value (READ_COMMITTED levels) then
    Ok "PRAGMA read_uncommitted = OFF;"
  else if strictEquals value (SERIALIZABLE levels) then
    Ok "-- SQLite's default isolation level is SERIALIZABLE. Nothing to do."
  else Throw ("Unknown isolation level: " ++ templateText value).

(** ** CREATE TABLE *)

(** [Object.values(attributes).filter(d => d.includes('PRIMARY KEY')).length > 1] *)
Definition needsMultiplePrimaryKeys (attributes : object string) : bool :=
  1 <? List.length
         (filter (fun definition => Js.includes definition "PRIMARY KEY")
                 (values attributes)).

(** [dataTypeString] at the end of one turn of the loop over the
    attributes. *)
Definition dataTypeString (needsMultiple : bool) (dataType : string) : string :=
  let containsAutoIncrement := Js.includes dataType "AUTOINCREMENT" in
  if Js.includes dataType "PRIMARY KEY" then
    let integerKey :=
      if Js.includes dataType "INT" then
        let base :=
          if containsAutoIncrement then "INTEGER PRIMARY KEY AUTOINCREMENT"
          else "INTEGER PRIMARY KEY" in
        if Js.includes dataType " REFERENCES" then
          (* the index is found, by the test above *)
          match Js.indexOf dataType " REFERENCES" with
          | Some i => base ++ Js.sliceFrom dataType i
          | None => base
          end
        else base
      else dataType in
    if needsMultiple then
      if Js.includes dataType "NOT NULL"
      then Js.replace dataType " PRIMARY KEY" ""
      else Js.replace dataType "PRIMARY KEY" "NOT NULL"
    else integerKey
  else dataType.

(** The two arrays the loop fills. *)
Record TableParts : Type := mkTableParts {
  primaryKeys : list string;
  attrArray : list string
}.

(** One turn of [for (const attr in attributes)]. *)
Definition pushAttribute (needsMultiple : bool) (parts : TableParts)
           (entry : string * string) : TableParts :=
  let (attr, dataType) := entry in
  let primaryKeys' :=
    if Js.includes dataType "PRIMARY KEY" && needsMultiple
    then List.app (primaryKeys parts) [attr]
    else primaryKeys parts in
  mkTableParts primaryKeys'
    (List.app (attrArray parts)
       [quoteIdentifier attr ++ " " ++ dataTypeString needsMultiple dataType]).

Definition tableParts (attributes : object string) : TableParts :=
  fold_left (pushAttribute (needsMultiplePrimaryKeys attributes)) attributes
            (mkTableParts [] []).

(** The statement before the boolean defaults are rewritten. *)
Definition createTableSql (table : string) (attributes : object string)
  : string :=
  let parts := tableParts attributes in
  let attrStr := Js.join ", " (attrArray parts) in
  let pkString := Js.join ", " (map quoteIdentifier (primaryKeys parts)) in
  let attrStr :=
    if 0 <? String.length pkString
    then attrStr ++ ", PRIMARY KEY (" ++ pkString ++ ")"
    else attrStr in
  "CREATE TABLE IF NOT EXISTS " ++ table ++ " (" ++ attrStr ++ ");".

(** *** Vocabulary for the statements about CREATE TABLE *)

(** The names of the attributes whose definition holds the marker, in the
    order of the attributes. *)
Definition primaryKeyNames (attributes : object string) : list string :=
  keys (filter (fun entry => Js.includes (snd entry) "PRIMARY KEY") attributes).

(** The text pushed on [attrArray] for one attribute. *)
Definition columnSql (needsMultiple : bool) (entry : string * string) : string :=
  quoteIdentifier (fst entry) ++ " " ++ dataTypeString needsMultiple (snd entry).

(** A definition with one marker: it holds [ PRIMARY KEY], and once the
    first of them is taken out no [PRIMARY KEY] is left. *)
Definition singleMarker (definition : string) : bool :=
  match Js.indexOf definition " PRIMARY KEY" with
  | Some i =>
      negb (Js.includes (Js.take i definition ++ Js.drop (i + 12) definition)
                        "PRIMARY KEY")
  | None => false
  end.

(** ** Options of UPDATE and DELETE *)

(** The store of bound values and a binder, which records a value in the
    store and answers the placeholder standing for it. *)
Definition Bind : Type := object JsValue.
Definition Binder : Type := JsValue -> Bind -> string * Bind.

(** [options.bindParam]: absent, [false], or a binder. *)
Inductive BindParamOption : Type :=
| BindParamUndefined
| BindParamFalse
| BindParamFunction (f : Binder).

(** The options the two queries read. *)
Record Options : Type := mkOptions {
  limit : JsValue;
  bindParam : BindParamOption;
  omitNull : JsValue;
  replacements : JsValue
}.

Definition orDefault (v d : JsValue) : JsValue :=
  if isUndefined v then d else v.

(** [_.defaults(options, source)]: a property of [options] that is
    [undefined] takes the value [source] has. *)
Definition defaults (options source : Options) : Options :=
  mkOptions (orDefault (limit options) (limit source))
            (match bindParam options with
             | BindParamUndefined => bindParam source
             | given => given
             end)
            (orDefault (omitNull options) (omitNull source))
            (orDefault (replacements options) (replacements source)).

(** What [this.escape] is given as its third argument. *)
Inductive EscapeOptions : Type :=
| EscapeAttributes (context : option string)
| EscapeUpdate (replacements : JsValue)
| EscapeQuery (options : Options).

(** [{ query, bind }]: [bind] is set unless [options.bindParam] is [false]. *)
Record UpdateResult : Type := mkUpdateResult {
  query : string;
  bind : option Bind
}.

(** [s.trim()] *)
Fixpoint trimStart (s : string) : string :=
  match s with
  | String c s' => if Regex.isSpace c then trimStart s' else s
  | EmptyString => EmptyString
  end.

Fixpoint trimEnd (s : string) : string :=
  match s with
  | EmptyString => EmptyString
  | String c s' =>
      match trimEnd s' with
      | EmptyString => if Regex.isSpace c then EmptyString else String c EmptyString
      | rest => String c rest
      end
  end.

Definition trim (s : string) : string := trimEnd (trimStart s).

(** [if (whereClause) { whereClause = `WHERE ${whereClause}`; }] *)
Definition deleteCondition (whereClause : string) : string :=
  if negb (String.eqb whereClause "") then "WHERE " ++ whereClause
  else whereClause.

(** ** The generator *)

Section SqliteQueryGenerator.

(** Methods inherited from the abstract generator and helpers of other
    modules, none of which is among the sources at hand. *)
Variable quoteTable : TableName -> string.
Variable escape : JsValue -> option AttributeObject -> EscapeOptions -> string.
Variable format :
  JsValue -> option AttributeObject -> JsValue -> Binder -> Bind -> string * Bind.
Variable defaultValueSchemable : JsValue -> bool.
Variable removeNullishValuesFromHash :
  object JsValue -> JsValue -> Options -> object JsValue.
Variable defaultBinder : Binder.
Variable toUpperCase : string -> string.
Variable Where : Type.
Variable Model : Type.
Variable whereQuery : Where -> Options -> Bind -> string * Bind.
Variable getWhereConditions : Where -> option Model -> Options -> string.

(** [this.options] *)
Variable generatorOptions : Options.

(** [createTableQuery(tableName, attributes, options)]: [options] is not
    read, the code about [options.uniqueKeys] being commented out. *)
Definition createTableQuery (name : TableName) (attributes : object string)
  : string :=
  replaceBooleanDefaults (createTableSql (quoteTable name) attributes).

(** *** attributesToSQL *)

Definition referencesSql (o : AttributeObject) (r : References) : string :=
  let referencesTable := quoteTable (model r) in
  let referencesKey :=
    match truthyString (key r) with
    | Some k => quoteIdentifier k
    | None => quoteIdentifier "id"
    end in
  " REFERENCES " ++ referencesTable ++ " (" ++ referencesKey ++ ")"
  ++ match truthyString (onDelete o) with
     | Some action => " ON DELETE " ++ toUpperCase action
     | None => ""
     end
  ++ match truthyString (onUpdate o) with
     | Some action => " ON UPDATE " ++ toUpperCase action
     | None => ""
     end.

Definition attributeSql (o : AttributeObject) (context : option string)
  : string :=
  type o
  ++ (match allowNull o with Some false => " NOT NULL" | _ => "" end)
  ++ (if defaultValueSchemable (defaultValue o)
      then " DEFAULT "
           ++ escape (defaultValue o) (Some o) (EscapeAttributes context)
      else "")
  ++ (if unique o then " UNIQUE" else "")
  ++ (if primaryKey o
      then " PRIMARY KEY" ++ (if autoIncrement o then " AUTOINCREMENT" else "")
      else "")
  ++ (match references o with
      | Some r => referencesSql o r
      | None => ""
      end).

(** One turn of [for (const name in attributes)]. *)
Definition addAttributeSql (context : option string) (result : object string)
           (entry : string * Attribute) : object string :=
  let (name, dataType) := entry in
  match dataType with
  | AttributeObj o =>
      let fieldName :=
        match truthyString (field o) with Some f => f | None => name end in
      objSet result fieldName (attributeSql o context)
  | AttributeSql sql => objSet result name sql
  end.

Definition attributesToSQL (attributes : object Attribute)
           (context : option string) : object string :=
  fold_left (addAttributeSql context) attributes [].

(** *** Table recreation *)

Definition backupTableName (name : TableName) : TableName :=
  match name with
  | TableObj o =>
      TableObj (mkTableObject (tableName o ++ "_backup") (schema o) None)
  | TableString s => TableString (s ++ "_backup")
  end.

Definition removeColumnQuery (name : TableName) (attributes : object Attribute)
  : string :=
  let attributes := attributesToSQL attributes None in
  let backup := backupTableName name in
  let quotedTableName := quoteTable name in
  let quotedBackupTableName := quoteTable backup in
  let attributeNames := Js.join ", " (map quoteIdentifier (keys attributes)) in
  createTableQuery backup attributes
  ++ "INSERT INTO " ++ quotedBackupTableName ++ " SELECT " ++ attributeNames
     ++ " FROM " ++ quotedTableName ++ ";"
  ++ "DROP TABLE " ++ quotedTableName ++ ";"
  ++ "ALTER TABLE " ++ quotedBackupTableName ++ " RENAME TO "
     ++ quotedTableName ++ ";".

Definition importName (attrNameBefore attrNameAfter attr : string) : string :=
  if String.eqb attrNameAfter attr
  then quoteIdentifier attrNameBefore ++ " AS " ++ quoteIdentifier attr
  else quoteIdentifier attr.

Definition renameColumnQuery (name : TableName)
           (attrNameBefore attrNameAfter : string)
           (attributes : object Attribute) : string :=
  let attributes := attributesToSQL attributes None in
  let backup := backupTableName name in
  let quotedTableName := quoteTable name in
  let quotedBackupTableName := quoteTable backup in
  let attributeNamesImport :=
    Js.join ", " (map (importName attrNameBefore attrNameAfter)
                      (keys attributes)) in
  let attributeNamesExport :=
    Js.join ", " (map quoteIdentifier (keys attributes)) in
  createTableQuery backup attributes
  ++ "INSERT INTO " ++ quotedBackupTableName ++ " SELECT "
     ++ attributeNamesImport ++ " FROM " ++ quotedTableName ++ ";"
  ++ "DROP TABLE " ++ quotedTableName ++ ";"
  ++ createTableQuery name attributes
  ++ "INSERT INTO " ++ quotedTableName ++ " SELECT " ++ attributeNamesExport
     ++ " FROM " ++ quotedBackupTableName ++ ";"
  ++ "DROP TABLE " ++ quotedBackupTableName ++ ";".

(** *** UPDATE *)

(** [modelAttributeMap]: every attribute under its name and, when it has
    one, under its field. *)
Definition addModelAttribute (attributeMap : object AttributeObject)
           (entry : string * AttributeObject) : object AttributeObject :=
  let (k, attribute) := entry in
  let attributeMap := objSet attributeMap k attribute in
  match truthyString (field attribute) with
  | Some f => objSet attributeMap f attribute
  | None => attributeMap
  end.

Definition modelAttributeMap (attributes : option (object AttributeObject))
  : object AttributeObject :=
  match attributes with
  | Some attributes => fold_left addModelAttribute attributes []
  | None => []
  end.

(** One turn of [for (const key in attrValueHash)]: the assignments so
    far and the store of bound values. *)
Definition pushAssignment (options : Options) (binder : Binder)
           (attributeMap : object AttributeObject) (acc : list string * Bind)
           (entry : string * JsValue) : list string * Bind :=
  let (assignments, store) := acc in
  let (k, value) := entry in
  let disabled :=
    match bindParam options with BindParamFalse => true | _ => false end in
  if isSequelizeMethod value || disabled then
    (List.app assignments
       [quoteIdentifier k ++ "="
        ++ escape value (objGet attributeMap k) (EscapeUpdate (replacements options))],
     store)
  else
    let (text, store') :=
      format value (objGet attributeMap k) (replacements options) binder store in
    (List.app assignments [quoteIdentifier k ++ "=" ++ text], store').

Definition updateQuery (name : TableName) (attrValueHash : object JsValue)
           (where_ : Where) (options : option Options)
           (attributes : option (object AttributeObject)) : UpdateResult :=
  let options :=
    match options with Some o => o | None => mkOptions JsUndefined BindParamUndefined JsUndefined JsUndefined end in
  let options := defaults options generatorOptions in
  let attrValueHash :=
    removeNullishValuesFromHash attrValueHash (omitNull options) options in
  let attributeMap := modelAttributeMap attributes in
  let binder :=
    match bindParam options with
    | BindParamFunction f => f
    | _ => defaultBinder
    end in
  let whereOptions :=
    mkOptions (limit options)
              (match bindParam options with
               | BindParamUndefined => BindParamFunction defaultBinder
               | given => given
               end)
              (omitNull options) (replacements options) in
  let (assignments, store) :=
    fold_left (pushAssignment options binder attributeMap) attrValueHash ([], []) in
  let (whereSql, store) := whereQuery where_ whereOptions store in
  let query :=
    if truthy (limit options) then
      trim ("UPDATE " ++ quoteTable name ++ " SET " ++ Js.join "," assignments
            ++ " WHERE rowid IN (SELECT rowid FROM " ++ quoteTable name ++ " "
            ++ whereSql ++ " LIMIT "
            ++ escape (limit options) None (EscapeQuery options) ++ ")")
    else
      trim ("UPDATE " ++ quoteTable name ++ " SET " ++ Js.join "," assignments
            ++ " " ++ whereSql) in
  mkUpdateResult query
    (match bindParam options with
     | BindParamFalse => None
     | _ => Some store
     end).

(** *** DELETE *)

Definition deleteQuery (name : TableName) (where_ : Where)
           (options : option Options) (model_ : option Model) : string :=
  let options :=
    match options with Some o => o | None => mkOptions JsUndefined BindParamUndefined JsUndefined JsUndefined end in
  let options := defaults options generatorOptions in
  let whereClause := getWhereConditions where_ model_ options in
  let whereClause := deleteCondition whereClause in
  let whereClause :=
    if truthy (limit options) then
      "WHERE rowid IN (SELECT rowid FROM " ++ quoteTable name ++ " "
      ++ whereClause ++ " LIMIT "
      ++ escape (limit options) None (EscapeQuery options) ++ ")"
    else whereClause in
  trim ("DELETE FROM " ++ quoteTable name ++ " " ++ whereClause).

End SqliteQueryGenerator.

(** ** Other queries of the generator *)

(** [/\.(\d+)(?:(?=\.)|$)/g] of [jsonPathExtractionQuery]. *)
Module IndexRegex.

(** [\d] *)
Definition isDigit (c : ascii) : bool :=
  let n := nat_of_ascii c in (48 <=? n) && (n <=? 57).

Fixpoint countDigits (s : string) : nat :=
  match s with
  | String c s' => if isDigit c then S (countDigits s') else 0
  | EmptyString => 0
  end.

(** The expression at the start of [s]: the number of digits captured.
    The digits are taken greedily; giving one back never helps, since what
    follows is then a digit, neither a dot nor the end of the text. *)
Definition matchIndex (s : string) : option nat :=
  match s with
  | String c s' =>
      if Ascii.eqb c "."%char then
        match countDigits s' with
        | O => None
        | S n =>
            match Js.drop (S n) s' with
            | EmptyString => Some (S n)
            | String d _ => if Ascii.eqb d "."%char then Some (S n) else None
            end
        end
      else None
  | EmptyString => None
  end.

(** [s.replace(/\.(\d+)(?:(?=\.)|$)/g, (__, digit) => `[${digit}]`)];
    [skip] counts the characters of the current match still to pass. *)
Fixpoint bracketIndexesFrom (skip : nat) (s : string) : string :=
  match s with
  | EmptyString => EmptyString
  | String c s' =>
      match skip with
      | S k => bracketIndexesFrom k s'
      | O =>
          match matchIndex s with
          | Some n => "[" ++ Js.take n s' ++ "]" ++ bracketIndexesFrom n s'
          | None => String c (bracketIndexesFrom 0 s')
          end
      end
  end.

Definition bracketIndexes (s : string) : string := bracketIndexesFrom 0 s.

(** A path segment that is a run of digits. *)
Definition isIndex (segment : string) : bool :=
  negb (String.eqb segment "")
  && (countDigits segment =? String.length segment).

(** A segment in the path text: an index in brackets, a name after a dot. *)
Definition renderSegment (segment : string) : string :=
  if isIndex segment then "[" ++ segment ++ "]" else "." ++ segment.

(** What follows a segment is the end of the text, or a dot. *)
Definition endsSegment (t : string) : Prop :=
  t = "" \/ exists r, t = String "."%char r.

(** The segments, each after a dot. *)
Definition dotted (segments : list string) : string :=
  String.concat "" (map (fun segment => "." ++ segment) segments).

End IndexRegex.

(** The options [addLimitAndOffset] reads. *)
Module Paging.

Record Options : Type := mkOptions {
  limit : JsValue;
  offset : JsValue
}.

End Paging.

(** [v != null] *)
Definition notNullish (v : JsValue) : bool :=
  match v with
  | JsUndefined | JsNull => false
  | _ => true
  end.

Section OtherQueries.

(** Methods inherited from the abstract generator and helpers of other
    modules, none of which is among the sources at hand; [toPath] is
    [_.toPath] of lodash. *)
Variable quoteTable : TableName -> string.
Variable escape : JsValue -> option AttributeObject -> EscapeOptions -> string.
Variable escapePaging : JsValue -> Paging.Options -> string.
Variable defaultValueSchemable : JsValue -> bool.
Variable toUpperCase : string -> string.
Variable isIdentifierQuoted : string -> bool.
Variable Path : Type.
Variable toPath : Path -> list string.

(** [addLimitAndOffset(options, model)]: [model] is not read;
    [escapePaging v options] is [this.escape(v, undefined, options)]. *)
Definition addLimitAndOffset (options : Paging.Options) : string :=
  let fragment := "" in
  let fragment :=
    if notNullish (Paging.limit options) then
      fragment ++ " LIMIT " ++ escapePaging (Paging.limit options) options
    else if truthy (Paging.offset options) then fragment ++ " LIMIT -1"
    else fragment in
  if truthy (Paging.offset options) then
    fragment ++ " OFFSET " ++ escapePaging (Paging.offset options) options
  else fragment.

(** [addColumnQuery(table, key, dataType)]; a property [fields[key]] that is
    missing reads [undefined] in the template. *)
Definition addColumnQuery (table : TableName) (k : string)
           (dataType : Attribute) : string :=
  let attributes := objSet [] k dataType in
  let fields :=
    attributesToSQL quoteTable escape defaultValueSchemable toUpperCase
                    attributes (Some "addColumn") in
  let attribute :=
    quoteIdentifier k ++ " "
    ++ match objGet fields k with
       | Some sql => sql
       | None => templateText JsUndefined
       end in
  let sql := "ALTER TABLE " ++ quoteTable table ++ " ADD " ++ attribute ++ ";" in
  replaceBooleanDefaults sql.

(** [truncateTableQuery(tableName, options = {})], with
    [options.restartIdentity] as second argument. *)
Definition truncateTableQuery (name : TableName) (restartIdentity : JsValue)
  : string :=
  Js.join ""
    ["DELETE FROM " ++ quoteTable name;
     if truthy restartIdentity then
       "; DELETE FROM " ++ quoteTable (TableString "sqlite_sequence")
       ++ " WHERE " ++ quoteIdentifier "name" ++ " = "
       ++ Utils.addTicks (Utils.removeTicks (quoteTable name) backtick) "'"%char
       ++ ";"
     else ""].

(** [jsonPathExtractionQuery(column, path, isJson)]: [isJson] is not read. *)
Definition jsonPathExtractionQuery (column : string) (path : Path) : string :=
  let quotedColumn :=
    if isIdentifierQuoted column then column else quoteIdentifier column in
  let pathStr :=
    escape
      (JsString
         (IndexRegex.bracketIndexes (Js.join "." ("$" :: toPath path))))
      None (EscapeAttributes None) in
  "json_extract(" ++ quotedColumn ++ "," ++ pathStr ++ ")".

(** *** Vocabulary for the statements about [attributesToSQL] *)

(** What [attributeSql] puts before and after the marker of a key. *)
Definition beforeMarker (o : AttributeObject) (context : option string)
  : string :=
  type o
  ++ (match allowNull o with Some false => " NOT NULL" | _ => "" end)
  ++ (if defaultValueSchemable (defaultValue o)
      then " DEFAULT "
           ++ escape (defaultValue o) (Some o) (EscapeAttributes context)
      else "")
  ++ (if unique o then " UNIQUE" else "").

Definition afterMarker (o : AttributeObject) : string :=
  (if autoIncrement o then " AUTOINCREMENT" else "")
  ++ (match references o with
      | Some r => referencesSql quoteTable toUpperCase o r
      | None => ""
      end).

End OtherQueries.

(** Modelled from the spec: [quoteTable] of the abstract generator, which is
    not among the sources at hand, for a dialect without schemas: a bare
    name is quoted as an identifier; a name with a schema is the schema,
    the delimiter (a dot unless given) and the table name, quoted as one
    identifier.  It serves the concrete examples only. *)
Definition quoteTableModel (name : TableName) : string :=
  match name with
  | TableString s => quoteIdentifier s
  | TableObj o =>
      match truthyString (schema o) with
      | Some sch =>
          quoteIdentifier
            (sch ++ match truthyString (delimiter o) with
                    | Some d => d
                    | None => "."
                    end ++ tableName o)
      | None => quoteIdentifier (tableName o)
      end
  end.

(** ** Stand-ins for the examples *)

(** Simple instances of the inherited methods, with which the generator
    can be run on concrete inputs.  Nothing but the examples depends on
    them. *)
Module Example.

Definition escape (v : JsValue) (_ : option AttributeObject)
           (_ : EscapeOptions) : string :=
  match v with
  | JsNumber z => DecimalString.NilZero.string_of_int (Z.to_int z)
  | JsString s => "'" ++ s ++ "'"
  | JsBool true => "true"
  | JsBool false => "false"
  | JsMethod source => source
  | JsNull | JsUndefined => "NULL"
  end.

(** A binder that numbers its placeholders. *)
Definition binder : Binder :=
  fun v store =>
    let slot :=
      DecimalString.NilZero.string_of_uint
        (Nat.to_uint (S (List.length store))) in
    ("$" ++ slot, List.app store [(slot, v)]).

Definition format (v : JsValue) (_ : option AttributeObject) (_ : JsValue)
           (f : Binder) (store : Bind) : string * Bind :=
  f v store.

Definition defaultValueSchemable (v : JsValue) : bool :=
  negb (isUndefined v).

Definition removeNullishValuesFromHash (hash : object JsValue)
           (_ : JsValue) (_ : Options) : object JsValue := hash.

Definition toUpperCase (s : string) : string := s.

(** A condition is given as SQL text, empty for none. *)
Definition whereQuery (condition : string) (_ : Options) (store : Bind)
  : string * Bind :=
  (if String.eqb condition "" then "" else "WHERE " ++ condition, store).

Definition getWhereConditions (condition : string) (_ : option unit)
           (_ : Options) : string := condition.

Definition noOptions : Options :=
  mkOptions JsUndefined BindParamUndefined JsUndefined JsUndefined.

End Example.

(** Further stand-ins, for the examples of the other queries. *)
Module ExampleQueries.

Definition escapePaging (v : JsValue) (_ : Paging.Options) : string :=
  Example.escape v None (EscapeAttributes None).

(** An identifier counts as quoted when it begins and ends with a
    backtick. *)
Definition isIdentifierQuoted (identifier : string) : bool :=
  String.prefix "`" identifier && Js.lastCharIs backtick identifier.

(** A path given as the list of its segments. *)
Definition toPath (path : list string) : list string := path.

End ExampleQueries.

(** * Properties *)

(** ** Strings *)

Module JsFacts.
Import Js.

Lemma append_empty_r (s : string) : s ++ "" = s.
Proof. induction s as [|c s IH]; simpl; congruence. Qed.

Lemma append_assoc (a b c : string) : (a ++ b) ++ c = a ++ (b ++ c).
Proof. induction a as [|x a IH]; simpl; congruence. Qed.

Lemma length_append (a b : string) :
  String.length (a ++ b) = String.length a + String.length b.
Proof. induction a as [|x a IH]; simpl; congruence. Qed.

Lemma append_cancel_l (a b c : string) : a ++ b = a ++ c -> b = c.
Proof. induction a as [|x a IH]; simpl; intros H; [|injection H]; auto. Qed.

Lemma prefix_empty (s : string) : String.prefix "" s = true.
Proof. destruct s; reflexivity. Qed.

Lemma prefix_cons (c d : ascii) (p s : string) :
  String.prefix (String c p) (String d s)
  = Ascii.eqb c d && String.prefix p s.
Proof.
  simpl. destruct (Ascii.ascii_dec c d) as [->|N].
  - now rewrite Ascii.eqb_refl.
  - apply Ascii.eqb_neq in N. now rewrite N.
Qed.

Lemma prefix_spec (p s : string) :
  String.prefix p s = true <-> exists t, s = p ++ t.
Proof.
  revert s; induction p as [|c p IH]; intros s.
  - rewrite prefix_empty. split; [intros _; now exists s | trivial].
  - destruct s as [|d s].
    + simpl. split; [discriminate | intros [t H]; discriminate].
    + rewrite prefix_cons, andb_true_iff, Ascii.eqb_eq, IH.
      split.
      * intros [-> [t ->]]. now exists t.
      * intros [t H]. simpl in H. injection H as -> ->. split; eauto.
Qed.

Lemma prefix_append (p t : string) : String.prefix p (p ++ t) = true.
Proof. apply prefix_spec. now exists t. Qed.

Lemma take_drop (n : nat) (s : string) : take n s ++ drop n s = s.
Proof.
  revert s; induction n as [|n IH]; intros [|c s]; simpl; trivial.
  now rewrite IH.
Qed.

Lemma take_append (a b : string) : take (String.length a) (a ++ b) = a.
Proof. induction a as [|c a IH]; simpl; [now destruct b | congruence]. Qed.

Lemma drop_append (a b : string) : drop (String.length a) (a ++ b) = b.
Proof. induction a as [|c a IH]; simpl; trivial. Qed.

Lemma drop_drop (n m : nat) (s : string) : drop n (drop m s) = drop (m + n) s.
Proof.
  revert s; induction m as [|m IH]; intros s; simpl; trivial.
  destruct s as [|c s]; [now destruct n | apply IH].
Qed.

Lemma length_drop (n : nat) (s : string) :
  String.length (drop n s) = String.length s - n.
Proof.
  revert s; induction n as [|n IH]; intros [|c s]; simpl; trivial; lia.
Qed.

(** *** [indexOf] finds the first occurrence *)

Lemma indexOf_split (s p : string) (i : nat) :
  indexOf s p = Some i ->
  s = take i s ++ p ++ drop (i + String.length p) s.
Proof.
  revert i; induction s as [|c s IH]; intros i.
  - destruct p as [|d p]; simpl; [|discriminate]. now intros [= <-].
  - cbn [indexOf]. destruct (String.prefix p (String c s)) eqn:E.
    + intros [= <-]. apply prefix_spec in E as [t E]. cbn [take plus].
      rewrite E at 2. rewrite drop_append. exact E.
    + destruct (indexOf s p) as [j|]; [|discriminate].
      cbn [option_map]. intros [= <-].
      change (S j + String.length p) with (S (j + String.length p)).
      cbn [take drop append]. f_equal. now apply IH.
Qed.

Lemma indexOf_length (s p : string) (i : nat) :
  indexOf s p = Some i -> String.length (take i s) = i.
Proof.
  revert i; induction s as [|c s IH]; intros i.
  - destruct p as [|d p]; simpl; [|discriminate]. now intros [= <-].
  - cbn [indexOf]. destruct (String.prefix p (String c s)); [now intros [= <-]|].
    destruct (indexOf s p) as [j|]; [|discriminate].
    cbn [option_map]. intros [= <-]. cbn [take String.length].
    f_equal. now apply IH.
Qed.

Lemma occurs_here (p t : string) : occurs p (p ++ t).
Proof. now exists "", t. Qed.

Lemma occurs_cons (c : ascii) (p s : string) :
  occurs p s -> occurs p (String c s).
Proof. intros [a [b ->]]. now exists (String c a), b. Qed.

Lemma occurs_cons_inv (c : ascii) (p s : string) :
  occurs p (String c s) ->
  String.prefix p (String c s) = true \/ occurs p s.
Proof.
  intros [a [b H]]. destruct a as [|d a]; simpl in H.
  - left. apply prefix_spec. now exists b.
  - right. injection H as _ ->. now exists a, b.
Qed.

Lemma includes_occurs (s p : string) : includes s p = true <-> occurs p s.
Proof.
  unfold includes. induction s as [|c s IH].
  - destruct p as [|d p]; simpl.
    + split; trivial. intros _. now exists "", "".
    + split; [discriminate|]. intros [a [b H]].
      destruct a; discriminate.
  - cbn [indexOf]. destruct (String.prefix p (String c s)) eqn:E.
    + split; trivial. intros _. apply prefix_spec in E as [t ->].
      apply occurs_here.
    + destruct (indexOf s p) as [j|]; simpl.
      * split; trivial. intros _. apply occurs_cons. now apply IH.
      * split; [discriminate|]. intros H.
        apply occurs_cons_inv in H as [H|H]; [congruence|].
        apply IH in H. discriminate.
Qed.

Lemma not_includes (s p : string) : includes s p = false <-> ~ occurs p s.
Proof.
  rewrite <- includes_occurs. destruct (includes s p); split; intros H;
    try discriminate; try reflexivity; tauto.
Qed.

Lemma occurs_append_l (p a b : string) : occurs p a -> occurs p (a ++ b).
Proof.
  intros [x [y ->]]. exists x, (y ++ b). now rewrite !append_assoc.
Qed.

Lemma occurs_append_r (p a b : string) : occurs p b -> occurs p (a ++ b).
Proof.
  intros [x [y ->]]. exists (a ++ x), y. now rewrite !append_assoc.
Qed.

Lemma lastChar_append (a : string) (c : ascii) :
  lastChar (a ++ String c "") = Some c.
Proof.
  induction a as [|d a IH]; simpl; trivial.
  rewrite IH. now destruct a.
Qed.

Lemma hasChar_append (c : ascii) (a b : string) :
  hasChar c (a ++ b) = hasChar c a || hasChar c b.
Proof.
  induction a as [|d a IH]; simpl; trivial. now rewrite IH, orb_assoc.
Qed.

End JsFacts.

(** ** Quoting identifiers *)

Lemma removeTicks_clean (s : string) (q : ascii) :
  Js.hasChar q (Utils.removeTicks s q) = false.
Proof.
  induction s as [|c s IH]; simpl; trivial.
  destruct (Ascii.eqb c q) eqn:E; simpl; trivial.
  now rewrite E.
Qed.

Lemma removeTicks_fixed (s : string) (q : ascii) :
  Js.hasChar q s = false -> Utils.removeTicks s q = s.
Proof.
  induction s as [|c s IH]; simpl; trivial.
  destruct (Ascii.eqb c q); simpl; [discriminate|].
  intros H. now rewrite IH.
Qed.

Lemma removeTicks_idempotent (s : string) (q : ascii) :
  Utils.removeTicks (Utils.removeTicks s q) q = Utils.removeTicks s q.
Proof. apply removeTicks_fixed, removeTicks_clean. Qed.

Lemma quoteIdentifier_unfold (identifier : string) :
  quoteIdentifier identifier
  = "`" ++ Utils.removeTicks identifier backtick ++ "`".
Proof.
  unfold quoteIdentifier, Utils.addTicks.
  now rewrite removeTicks_idempotent.
Qed.

(** C10: whatever the identifier, [quoteIdentifier] answers a backtick, the
    identifier with its backticks deleted, and a backtick: the result begins
    and ends with a backtick and has none in between. *)
Theorem quoteIdentifier_single_quoted_identifier (identifier : string) :
  quoteIdentifier identifier
  = "`" ++ Utils.removeTicks identifier backtick ++ "`"
  /\ Js.startsWith (quoteIdentifier identifier) "`" = true
  /\ Js.lastChar (quoteIdentifier identifier) = Some backtick
  /\ Js.hasChar backtick (Utils.removeTicks identifier backtick) = false.
Proof.
  rewrite quoteIdentifier_unfold. split; [reflexivity|].
  split; [apply JsFacts.prefix_append|]. split.
  - change ("`" ++ Utils.removeTicks identifier backtick ++ "`")
      with ((String backtick (Utils.removeTicks identifier backtick))
            ++ String backtick "").
    apply JsFacts.lastChar_append.
  - apply removeTicks_clean.
Qed.

Lemma stripClosing_append (q : ascii) (body : string) :
  Js.hasChar q body = false ->
  SpecUnquote.stripClosing q (body ++ String q "") = Some body.
Proof.
  induction body as [|c body IH]; simpl.
  - now rewrite Ascii.eqb_refl.
  - destruct (Ascii.eqb c q) eqn:E; simpl; [discriminate|].
    intros H. rewrite (IH H).
    destruct body; simpl; trivial.
Qed.

Lemma collapseDoubled_clean (q : ascii) (body : string) :
  Js.hasChar q body = false ->
  SpecUnquote.collapseDoubled q body = Some body.
Proof.
  induction body as [|c body IH]; simpl; trivial.
  destruct (Ascii.eqb c q); simpl; [discriminate|].
  intros H. now rewrite (IH H).
Qed.

Lemma unquote_quoteIdentifier (identifier : string) :
  SpecUnquote.unquoteIdentifier (quoteIdentifier identifier)
  = Some (Utils.removeTicks identifier backtick).
Proof.
  rewrite quoteIdentifier_unfold.
  unfold SpecUnquote.unquoteIdentifier. simpl.
  rewrite stripClosing_append by apply removeTicks_clean.
  apply collapseDoubled_clean, removeTicks_clean.
Qed.

(** C2, as stated, fails: the identifier [a`b] holds a backtick, yet it is
    quoted as [`ab`], not as [`a``b`], and unquoting gives [ab]. *)
Lemma quoteIdentifier_backtick_not_doubled :
  Js.includes "a`b" "`" = true
  /\ quoteIdentifier "a`b" = "`ab`"
  /\ quoteIdentifier "a`b" <> "`a``b`"
  /\ SpecUnquote.unquoteIdentifier (quoteIdentifier "a`b") <> Some "a`b".
Proof. repeat split; try reflexivity; discriminate. Qed.

(** C2, amended: [quoteIdentifier] deletes the embedded backticks and wraps
    the rest in backticks; stripping the outer quotes and collapsing doubled
    ones gives the identifier without its backticks, which is the identifier
    itself exactly when it holds no backtick. *)
Theorem quoteIdentifier_roundtrip_removes_backticks (identifier : string) :
  SpecUnquote.unquoteIdentifier (quoteIdentifier identifier)
  = Some (Utils.removeTicks identifier backtick)
  /\ (SpecUnquote.unquoteIdentifier (quoteIdentifier identifier)
      = Some identifier
      <-> Js.hasChar backtick identifier = false).
Proof.
  split; [apply unquote_quoteIdentifier|].
  rewrite unquote_quoteIdentifier. split.
  - intros [= H]. rewrite <- H. apply removeTicks_clean.
  - intros H. now rewrite removeTicks_fixed.
Qed.

Lemma quoteIdentifier_roundtrip_removes_backticks_witness :
  Js.hasChar backtick "users" = false
  /\ SpecUnquote.unquoteIdentifier (quoteIdentifier "users") = Some "users".
Proof.
  split; [reflexivity|].
  apply (quoteIdentifier_roundtrip_removes_backticks "users"). reflexivity.
Defined.

(** ** Isolation levels *)



(** A level that is not among the four, and a value that is no string. *)
Example unknown_isolation_levels :
  setIsolationLevelQuery ISOLATION_LEVELS (JsString "SNAPSHOT")
  = Throw "Unknown isolation level: SNAPSHOT"
  /\ setIsolationLevelQuery ISOLATION_LEVELS JsUndefined
     = Throw "Unknown isolation level: undefined".
Proof. split; reflexivity. Qed.

(** ** The JSON statement check *)

Lemma indexOf_zero (s p : string) :
  Js.indexOf s p = Some 0 -> String.prefix p s = true.
Proof.
  destruct s as [|c s]; cbn [Js.indexOf].
  - destruct (String.prefix p ""); [trivial | discriminate].
  - destruct (String.prefix p (String c s)); [trivial|].
    destruct (Js.indexOf s p); discriminate.
Qed.

Lemma take_occurs (k n : nat) (s r : string) (c : ascii) :
  Js.drop k s = String c r -> k < n ->
  Js.occurs (String c "") (Js.take n s).
Proof.
  revert n s; induction k as [|k IH]; intros n s H L.
  - simpl in H. subst s. destruct n as [|n]; [lia|]. simpl.
    exists "", (Js.take n r). reflexivity.
  - destruct s as [|d s]; [discriminate|]. simpl in H.
    destruct n as [|n]; [lia|]. simpl.
    apply JsFacts.occurs_cons. apply IH; [assumption | lia].
Qed.

Lemma matchToken_positive (s : string) (n : nat) :
  Regex.matchToken s = Some n -> 0 < n.
Proof.
  unfold Regex.matchToken. destruct s as [|c s]; [discriminate|].
  destruct (Regex.isQuote c).
  - destruct (Regex.quotedRest c s) as [m|]; cbn [option_map].
    + intros [= <-]. lia.
    + destruct (Regex.countSpaceOrWord (String c s)).
      * destruct (Regex.isPunctuation c); [|discriminate].
        intros [= <-]. lia.
      * intros [= <-]. lia.
  - destruct (Regex.countSpaceOrWord (String c s)).
    + destruct (Regex.isPunctuation c); [|discriminate].
      intros [= <-]. lia.
    + intros [= <-]. lia.
Qed.

Lemma matchAfterSpaces_positive (k : nat) (s tok : string) (len : nat) :
  Regex.matchAfterSpaces k s = Some (len, tok) -> 0 < len.
Proof.
  induction k as [|k IH]; cbn [Regex.matchAfterSpaces];
    destruct (Regex.matchToken (Js.drop _ s)) as [n|] eqn:E;
    try discriminate; try assumption;
    intros [= <- _]; apply matchToken_positive in E; lia.
Qed.

Lemma jsonFunctionRegex_parenthesis (s matched : string) :
  Regex.jsonFunctionRegex s = Some matched ->
  exists i, Js.indexOf matched "(" = Some (S i).
Proof.
  unfold Regex.jsonFunctionRegex.
  destruct (Regex.prefixNoCase "json" (Js.drop (Regex.countSpaces s) s)) eqn:P;
    [|discriminate].
  set (w := Regex.countSpaces s) in *.
  set (g := Regex.matchGroups (Js.drop 4 (Js.drop w s))).
  destruct (Regex.matchArguments (Js.drop (4 + g) (Js.drop w s)))
    as [a|] eqn:A; [|discriminate].
  intros [= <-].
  unfold Regex.matchArguments in A.
  destruct (Js.drop (4 + g) (Js.drop w s)) as [|c r] eqn:D; [discriminate|].
  destruct (Ascii.eqb c "(") eqn:C; [|discriminate].
  apply Ascii.eqb_eq in C. subst c.
  destruct (Js.indexOf r ")") as [i|]; [|discriminate].
  injection A as <-.
  rewrite JsFacts.drop_drop in D.
  assert (O : Js.occurs "(" (Js.take (w + 4 + g + S (S i)) s)).
  { apply (take_occurs (w + (4 + g)) _ s r); [exact D | lia]. }
  apply JsFacts.includes_occurs in O. unfold Js.includes in O.
  destruct (Js.indexOf (Js.take (w + 4 + g + S (S i)) s) "(") as [[|j]|] eqn:I;
    try discriminate; [|now exists j].
  exfalso. apply indexOf_zero in I.
  destruct s as [|c0 s0]; [discriminate|].
  replace (w + 4 + g + S (S i)) with (S (w + 4 + g + S i)) in I by lia.
  cbn [Js.take] in I. rewrite JsFacts.prefix_cons in I.
  apply andb_true_iff in I as [I _]. apply Ascii.eqb_eq in I. subst c0.
  subst w. cbn in P. discriminate.
Qed.

Lemma scanStep_progress (stmt : string) (st st' : ScanState) :
  scanStep stmt st = inl st' -> currentIndex st < currentIndex st'.
Proof.
  unfold scanStep.
  destruct (Regex.jsonFunctionRegex _) as [matched|] eqn:F.
  - apply jsonFunctionRegex_parenthesis in F as [i ->].
    intros [= <-]. simpl. lia.
  - destruct (Regex.tokenCaptureRegex _) as [[len tok]|] eqn:T;
      [|discriminate].
    apply matchAfterSpaces_positive in T.
    destruct (String.eqb tok "("); [intros [= <-]; simpl; lia|].
    destruct (String.eqb tok ")"); [intros [= <-]; simpl; lia|].
    destruct (String.eqb tok ";"); [discriminate|].
    intros [= <-]. simpl. lia.
Qed.

Lemma scanLoop_runs (fuel : nat) (stmt : string) (st : ScanState) :
  String.length stmt - currentIndex st <= fuel ->
  loopRuns stmt st (scanLoop fuel stmt st).
Proof.
  revert st; induction fuel as [|fuel IH]; intros st B; cbn [scanLoop];
    destruct (Nat.leb_spec (String.length stmt) (currentIndex st)) as [L|L];
    try (now apply loop_done); try lia.
  destruct (scanStep stmt st) as [st'|st'] eqn:E.
  - apply (loop_continue stmt st st'); trivial.
    apply IH. apply scanStep_progress in E. lia.
  - now apply loop_break.
Qed.

(** [scan] computes the state in which the loop ends. *)
Lemma scan_runs (stmt : string) : loopRuns stmt scanStart (scan stmt).
Proof. apply scanLoop_runs. simpl. lia. Qed.

Lemma loopRuns_deterministic (stmt : string) (st a b : ScanState) :
  loopRuns stmt st a -> loopRuns stmt st b -> a = b.
Proof.
  intros Ha; revert b.
  induction Ha as [st L|st st' L E|st st' st'' L E Ha IH]; intros b Hb;
    inversion Hb; subst; try lia; try congruence.
  apply IH. congruence.
Qed.

Lemma scan_final (stmt : string) (final : ScanState) :
  loopRuns stmt scanStart final -> scan stmt = final.
Proof.
  intros R. exact (loopRuns_deterministic _ _ _ _ (scan_runs stmt) R).
Qed.


Ltac scan_turn :=
  first
    [ eapply loop_continue; [simpl; lia | vm_compute; reflexivity | ]
    | eapply loop_break; [simpl; lia | vm_compute; reflexivity ] ].


(** Whatever follows the semicolon, a JSON extraction followed by a
    semicolon is rejected. *)
Lemma statement_after_json_function_rejected (rest : string) :
  _checkValidJsonStatement
    (JsString ("json_extract(col,'$.a');" ++ rest))
  = Throw ("Invalid json statement: json_extract(col,'$.a');" ++ rest).
Proof.
  cbn [_checkValidJsonStatement].
  rewrite (scan_final _ (mkScan 23 1 1 true true)); [reflexivity|].
  do 7 scan_turn.
Qed.

(** Parentheses left open after a JSON function are rejected too. *)
Lemma unbalanced_json_function_rejected :
  _checkValidJsonStatement (JsString "json_extract(col,'$.a') (")
  = Throw "Invalid json statement: json_extract(col,'$.a') (".
Proof. reflexivity. Qed.

(** ** Occurrences of a text in a concatenation *)

Module Occurrences.
Import Js JsFacts.

Lemma append_eq_append (x y a c : string) :
  x ++ y = a ++ c ->
  (exists m, a = x ++ m /\ y = m ++ c)
  \/ (exists m, x = a ++ m /\ c = m ++ y).
Proof.
  revert a; induction x as [|e x IH]; intros a H.
  - left. exists a. split; trivial.
  - destruct a as [|f a].
    + right. exists (String e x). split; trivial. symmetry. exact H.
    + simpl in H. injection H as -> H.
      destruct (IH a H) as [[m [-> ->]]|[m [-> ->]]].
      * left. now exists m.
      * right. now exists m.
Qed.

Lemma in_properSplits (p1 p2 : string) :
  p1 <> "" -> p2 <> "" -> In (p1, p2) (properSplits (p1 ++ p2)).
Proof.
  induction p1 as [|c p1 IH]; intros N1 N2; [congruence|].
  cbn [append properSplits]. apply in_or_app.
  destruct p1 as [|d p1].
  - left. simpl. destruct p2; [congruence | now left].
  - right. apply in_map_iff. exists (String d p1, p2). split; trivial.
    apply IH; [discriminate | assumption].
Qed.

(** An occurrence in [x ++ y] lies in [x], lies in [y], or is cut in two
    by the junction. *)
Lemma occurs_append_inv (p x y : string) :
  occurs p (x ++ y) ->
  occurs p x \/ occurs p y
  \/ exists p1 p2, In (p1, p2) (properSplits p)
                   /\ (exists x', x = x' ++ p1)
                   /\ (exists y', y = p2 ++ y').
Proof.
  intros [a [b H]].
  apply append_eq_append in H as [[m [-> ->]]|[m [-> H]]].
  - right; left. now exists m, b.
  - symmetry in H. apply append_eq_append in H as [[n [-> ->]]|[n [-> ->]]].
    + destruct m as [|c m].
      * right; left. simpl. exists "", b. reflexivity.
      * destruct n as [|d n].
        -- left. exists a, "". now rewrite !append_empty_r.
        -- right; right. exists (String c m), (String d n).
           split; [apply in_properSplits; discriminate|].
           split; [now exists a | now exists b].
    + left. exists a, n. reflexivity.
Qed.

Lemma lastChar_suffix (x' p1 : string) :
  p1 <> "" -> lastChar (x' ++ p1) = lastChar p1.
Proof.
  intros N. induction x' as [|c x' IH]; simpl; trivial.
  rewrite IH. destruct (x' ++ p1) eqn:E; trivial.
  destruct x'; simpl in E; [congruence | discriminate].
Qed.

(** No part of [p] that ends an occurrence cut by the junction ends with
    the last character of [x]. *)
Lemma occurs_append_last (p x y : string) (c : ascii) :
  lastChar x = Some c ->
  forallb (fun ab => negb (lastCharIs c (fst ab))) (properSplits p) = true ->
  occurs p (x ++ y) -> occurs p x \/ occurs p y.
Proof.
  intros L F O.
  apply occurs_append_inv in O as [O|[O|[p1 [p2 [I [[x' ->] _]]]]]]; auto.
  exfalso. rewrite forallb_forall in F. specialize (F _ I). simpl in F.
  assert (N : p1 <> "").
  { clear -I. revert I. generalize p2. induction p as [|e p IH]; intros q I;
      [contradiction|].
    cbn [properSplits] in I. apply in_app_or in I as [I|I].
    - destruct p; [contradiction|]. destruct I as [[= <- _]|[]]. discriminate.
    - apply in_map_iff in I as [[u v] [[= <- _] _]]. discriminate. }
  rewrite (lastChar_suffix _ _ N) in L.
  unfold lastCharIs in F. rewrite L, Ascii.eqb_refl in F. discriminate.
Qed.

Lemma prefix_short (p y1 y2 : string) :
  String.length p <= String.length y1 ->
  String.prefix p (y1 ++ y2) = String.prefix p y1.
Proof.
  revert y1; induction p as [|c p IH]; intros y1 L.
  - now rewrite !prefix_empty.
  - destruct y1 as [|d y1]; [simpl in L; lia|].
    cbn [append]. rewrite !prefix_cons. f_equal. apply IH. simpl in L. lia.
Qed.

Lemma properSplits_length (p p1 p2 : string) :
  In (p1, p2) (properSplits p) -> S (String.length p2) <= String.length p.
Proof.
  revert p1 p2; induction p as [|e p IH]; intros p1 p2 I; [contradiction|].
  cbn [properSplits] in I. apply in_app_or in I as [I|I].
  - destruct p; [contradiction|]. destruct I as [[= _ <-]|[]]. simpl. lia.
  - apply in_map_iff in I as [[u v] [[= _ <-] I]].
    apply IH in I. simpl in *. lia.
Qed.

(** No part of [p] that begins an occurrence cut by the junction begins
    [y1], a text at least as long as such a part. *)
Lemma occurs_append_first (p x y1 y2 : string) :
  String.length p <= S (String.length y1) ->
  forallb (fun ab => negb (String.prefix (snd ab) y1)) (properSplits p) = true ->
  occurs p (x ++ y1 ++ y2) -> occurs p x \/ occurs p (y1 ++ y2).
Proof.
  intros L F O.
  apply occurs_append_inv in O as [O|[O|[p1 [p2 [I [_ [y' E]]]]]]]; auto.
  exfalso. rewrite forallb_forall in F. specialize (F _ I). simpl in F.
  apply properSplits_length in I.
  assert (P : String.prefix p2 (y1 ++ y2) = true)
    by (apply prefix_spec; now exists y').
  rewrite prefix_short in P by lia. rewrite P in F. discriminate.
Qed.

(** The same, for a text [y] that is known in full. *)
Lemma occurs_append_closed (p x y : string) :
  forallb (fun ab => negb (String.prefix (snd ab) y)) (properSplits p) = true ->
  occurs p (x ++ y) -> occurs p x \/ occurs p y.
Proof.
  intros F O.
  apply occurs_append_inv in O as [O|[O|[p1 [p2 [I [_ [y' E]]]]]]]; auto.
  exfalso. rewrite forallb_forall in F. specialize (F _ I). simpl in F.
  assert (P : String.prefix p2 y = true)
    by (apply prefix_spec; now exists y').
  rewrite P in F. discriminate.
Qed.

(** *** The first occurrence *)

Lemma take_short (n : nat) (a b : string) :
  n <= String.length a -> take n (a ++ b) = take n a.
Proof.
  revert a; induction n as [|n IH]; intros a L; [now destruct a, b|].
  destruct a as [|c a]; [simpl in L; lia|].
  simpl. f_equal. apply IH. simpl in L. lia.
Qed.

Lemma prefix_within (p x y : string) (n : nat) :
  String.prefix p (x ++ y) = true ->
  String.length p <= String.length x + n ->
  String.prefix p (x ++ take n y) = true.
Proof.
  revert x y n; induction p as [|c p IH]; intros x y n P L;
    [apply prefix_empty|].
  destruct x as [|d x].
  - cbn [append] in *. destruct y as [|d y]; [discriminate|].
    rewrite prefix_cons in P. apply andb_true_iff in P as [C P].
    destruct n as [|n]; [simpl in L; lia|].
    cbn [take]. rewrite prefix_cons, C. simpl.
    apply (IH "" y n); [exact P | simpl in *; lia].
  - cbn [append] in *. rewrite prefix_cons in *.
    apply andb_true_iff in P as [C P]. rewrite C. simpl.
    apply IH; [exact P | simpl in *; lia].
Qed.

Lemma indexOf_first (p pre post : string) :
  ~ occurs p (pre ++ withoutLast p) ->
  indexOf (pre ++ p ++ post) p = Some (String.length pre).
Proof.
  induction pre as [|c pre IH]; intros N.
  - cbn [append String.length]. destruct (p ++ post) eqn:E.
    + destruct p; [reflexivity | discriminate].
    + cbn [indexOf]. rewrite <- E. now rewrite prefix_append.
  - cbn [append indexOf String.length].
    destruct (String.prefix p (String c (pre ++ p ++ post))) eqn:P.
    + exfalso. apply N.
      change (String c (pre ++ p ++ post)) with (String c pre ++ p ++ post) in P.
      apply (prefix_within _ _ _ (String.length p - 1)) in P;
        [|simpl; lia].
      rewrite take_short in P by lia.
      apply prefix_spec in P as [t P]. exists "", t. exact P.
    + rewrite IH; [reflexivity|].
      intros O. apply N. now apply occurs_cons.
Qed.

Lemma replace_first (p r pre post : string) :
  ~ occurs p (pre ++ withoutLast p) ->
  replace (pre ++ p ++ post) p r = pre ++ r ++ post.
Proof.
  intros N. unfold replace. rewrite (indexOf_first _ _ _ N).
  rewrite take_append. f_equal. f_equal.
  rewrite <- drop_drop, drop_append. apply drop_append.
Qed.

End Occurrences.

(** ** CREATE TABLE *)

Section CreateTable.
Import Js JsFacts Occurrences.

Lemma tableParts_fold (needs : bool) (attributes : object string)
      (pks arr : list string) :
  fold_left (pushAttribute needs) attributes (mkTableParts pks arr)
  = mkTableParts
      (List.app pks (if needs then primaryKeyNames attributes else []))
      (List.app arr (map (columnSql needs) attributes)).
Proof.
  revert pks arr; induction attributes as [|[attr dataType] rest IH];
    intros pks arr.
  - simpl. destruct needs; now rewrite !app_nil_r.
  - cbn [fold_left pushAttribute primaryKeys attrArray]. rewrite IH.
    unfold primaryKeyNames, keys. cbn [filter snd map].
    unfold columnSql at 2. cbn [fst snd].
    rewrite <- !app_assoc. f_equal.
    destruct needs, (includes dataType "PRIMARY KEY"); simpl;
      now rewrite <- ?app_assoc.
Qed.

Lemma tableParts_unfold (attributes : object string) :
  tableParts attributes
  = mkTableParts
      (if needsMultiplePrimaryKeys attributes
       then primaryKeyNames attributes else [])
      (map (columnSql (needsMultiplePrimaryKeys attributes)) attributes).
Proof. unfold tableParts. now rewrite tableParts_fold. Qed.

Lemma primaryKeyNames_length (attributes : object string) :
  List.length (primaryKeyNames attributes)
  = List.length (filter (fun d => includes d "PRIMARY KEY") (values attributes)).
Proof.
  unfold primaryKeyNames, keys, values.
  induction attributes as [|[a d] rest IH]; simpl; trivial.
  destruct (includes d "PRIMARY KEY"); simpl; congruence.
Qed.

Lemma needsMultiple_iff (attributes : object string) :
  needsMultiplePrimaryKeys attributes = true
  <-> 2 <= List.length (primaryKeyNames attributes).
Proof.
  unfold needsMultiplePrimaryKeys. rewrite <- primaryKeyNames_length.
  rewrite Nat.ltb_lt. lia.
Qed.

Lemma join_quoted_nonempty (name : string) (names : list string) :
  (0 <? String.length (join ", " (map quoteIdentifier (name :: names))))
  = true.
Proof.
  unfold join. cbn [map String.concat].
  rewrite quoteIdentifier_unfold.
  destruct (map quoteIdentifier names); reflexivity.
Qed.

(** The statement built for a composite key. *)
Lemma createTableSql_composite (table : string) (attributes : object string) :
  2 <= List.length (primaryKeyNames attributes) ->
  createTableSql table attributes
  = "CREATE TABLE IF NOT EXISTS " ++ table ++ " ("
    ++ join ", " (map (columnSql true) attributes)
    ++ ", PRIMARY KEY ("
    ++ join ", " (map quoteIdentifier (primaryKeyNames attributes))
    ++ "));".
Proof.
  intros N. unfold createTableSql. rewrite tableParts_unfold.
  rewrite (proj2 (needsMultiple_iff attributes) N).
  cbn [primaryKeys attrArray].
  destruct (primaryKeyNames attributes) as [|name names];
    [simpl in N; lia|].
  rewrite join_quoted_nonempty.
  rewrite !append_assoc. reflexivity.
Qed.

Lemma occurs_marker_tail (pre post : string) :
  occurs "PRIMARY KEY" (pre ++ " PRIMARY KEY" ++ post).
Proof. exists (pre ++ " "), post. now rewrite append_assoc. Qed.

(** A definition with one marker, cut at the marker. *)
Lemma singleMarker_split (d : string) :
  singleMarker d = true ->
  exists pre post,
    d = pre ++ " PRIMARY KEY" ++ post
    /\ indexOf d " PRIMARY KEY" = Some (String.length pre)
    /\ ~ occurs "PRIMARY KEY" (pre ++ post).
Proof.
  unfold singleMarker.
  destruct (indexOf d " PRIMARY KEY") as [i|] eqn:I; [|discriminate].
  rewrite negb_true_iff, not_includes. intros N.
  exists (take i d), (drop (i + 12) d). split; [|split; trivial].
  - now apply indexOf_split in I.
  - now rewrite (indexOf_length _ _ _ I).
Qed.

Lemma no_marker_before (pre post : string) :
  ~ occurs "PRIMARY KEY" (pre ++ post) ->
  ~ occurs "PRIMARY KEY" ((pre ++ " ") ++ withoutLast "PRIMARY KEY").
Proof.
  intros N O. rewrite append_assoc in O.
  change (" " ++ withoutLast "PRIMARY KEY") with (" PRIMARY KE") in O.
  apply occurs_append_closed in O as [O|O]; [| |reflexivity].
  - apply N. now apply occurs_append_l.
  - apply includes_occurs in O. discriminate.
Qed.

Lemma no_marker_after_replacement (pre post : string) :
  ~ occurs "PRIMARY KEY" (pre ++ post) ->
  ~ occurs "PRIMARY KEY" ((pre ++ " ") ++ "NOT NULL" ++ post).
Proof.
  intros N O.
  replace ((pre ++ " ") ++ "NOT NULL" ++ post)
    with ((pre ++ " NOT NULL") ++ post) in O
    by (now rewrite !append_assoc).
  apply (occurs_append_last _ _ _ "L"%char) in O as [O|O];
    [| |now rewrite lastChar_suffix|reflexivity].
  - apply occurs_append_closed in O as [O|O]; [| |reflexivity].
    + apply N. now apply occurs_append_l.
    + apply includes_occurs in O. discriminate.
  - apply N. now apply occurs_append_r.
Qed.

(** With one marker in the definition, the composite form has none. *)
Lemma dataTypeString_no_marker (dataType : string) :
  singleMarker dataType = true ->
  includes (dataTypeString true dataType) "PRIMARY KEY" = false.
Proof.
  intros S. apply singleMarker_split in S as [pre [post [E [I N]]]].
  unfold dataTypeString.
  assert (M : includes dataType "PRIMARY KEY" = true).
  { apply includes_occurs. rewrite E. apply occurs_marker_tail. }
  rewrite M. apply not_includes.
  destruct (includes dataType "NOT NULL").
  - unfold replace. rewrite I, E, take_append.
    rewrite <- drop_drop, drop_append. exact N.
  - rewrite E.
    replace (pre ++ " PRIMARY KEY" ++ post)
      with ((pre ++ " ") ++ "PRIMARY KEY" ++ post)
      by (now rewrite append_assoc).
    rewrite replace_first by (now apply (no_marker_before pre post)).
    now apply no_marker_after_replacement.
Qed.

(** Taking [ PRIMARY KEY] out of a text keeps its [NOT NULL]. *)
Lemma not_null_kept (a b : string) :
  occurs "NOT NULL" (a ++ " PRIMARY KEY" ++ b) -> occurs "NOT NULL" (a ++ b).
Proof.
  intros O.
  apply occurs_append_first in O as [O|O]; [| |simpl; lia|reflexivity].
  - now apply occurs_append_l.
  - apply (occurs_append_last _ _ _ "Y"%char) in O as [O|O];
      [| |reflexivity|reflexivity].
    + apply includes_occurs in O. discriminate.
    + now apply occurs_append_r.
Qed.

Lemma dataTypeString_not_null (dataType : string) :
  includes dataType "PRIMARY KEY" = true ->
  includes (dataTypeString true dataType) "NOT NULL" = true.
Proof.
  intros M. unfold dataTypeString. rewrite M.
  destruct (includes dataType "NOT NULL") eqn:NN.
  - unfold replace.
    destruct (indexOf dataType " PRIMARY KEY") as [i|] eqn:I; [|exact NN].
    apply includes_occurs. apply includes_occurs in NN.
    apply indexOf_split in I. rewrite I in NN.
    apply not_null_kept in NN. exact NN.
  - unfold replace. unfold includes in M.
    destruct (indexOf dataType "PRIMARY KEY") as [i|]; [|discriminate].
    apply includes_occurs.
    apply occurs_append_r, occurs_here.
Qed.

End CreateTable.

(** ** Global replacement *)

Module ReplaceFacts.
Import Regex.

(** A text without any match is left as it is. *)
Lemma replaceAll_unmatched (p : list item) (r s : string) :
  unmatched p s = true -> replaceAll p r s = s.
Proof.
  unfold replaceAll. induction s as [|c s IH]; intros U; trivial.
  cbn [unmatched] in U. cbn [replaceAllFrom].
  destruct (matchItems p (String c s)); [discriminate|].
  now rewrite IH.
Qed.

Lemma matchItems_lits (a : string) (rest : list item) (s : string) (n : nat) :
  matchItems (List.app (lits a) rest) s = Some n -> String.prefix a s = true.
Proof.
  revert s n; induction a as [|c a IH]; intros s n M.
  - apply JsFacts.prefix_empty.
  - cbn in M. destruct s as [|d s]; [discriminate|].
    destruct (Ascii.eqb d c) eqn:E; [|discriminate].
    apply Ascii.eqb_eq in E. subst d.
    destruct (matchItems (List.app (map Lit (list_ascii_of_string a)) rest) s)
      as [m|] eqn:M'; [|discriminate].
    rewrite JsFacts.prefix_cons, Ascii.eqb_refl. simpl.
    apply (IH s m). exact M'.
Qed.

Lemma unmatched_without_prefix (a : string) (rest : list item) (s : string) :
  Js.includes s a = false -> unmatched (List.app (lits a) rest) s = true.
Proof.
  rewrite JsFacts.not_includes.
  induction s as [|c s IH]; intros N; cbn [unmatched].
  - destruct (matchItems _ "") eqn:M; trivial.
    exfalso. apply N. apply matchItems_lits in M.
    apply JsFacts.prefix_spec in M as [t ->]. apply JsFacts.occurs_here.
  - destruct (matchItems _ (String c s)) eqn:M.
    + exfalso. apply N. apply matchItems_lits in M.
      apply JsFacts.prefix_spec in M as [t ->]. apply JsFacts.occurs_here.
    + apply IH. intros O. apply N. now apply JsFacts.occurs_cons.
Qed.

Section TwoPatterns.

(** Two patterns that begin with the same character [D], found nowhere
    else in the first; a replacement that begins with [D] and after
    which the first pattern does not match. *)
Variable D : ascii.
Variables ptail qtail : list item.
Variable rtail : string.

Let p := Lit D :: ptail.
Let q := Lit D :: qtail.
Let r := String D rtail.

Hypothesis ptail_free : freeOf D ptail = true.
Hypothesis r_blocks :
  forall y, unmatched p y = true -> unmatched p (r ++ y) = true.

Lemma other_start (d : ascii) (s : string) (t : list item) :
  Ascii.eqb d D = false -> matchItems (Lit D :: t) (String d s) = None.
Proof. intros E. cbn. now rewrite E. Qed.

Lemma replace_other_start (d : ascii) (s : string) :
  Ascii.eqb d D = false ->
  replaceAllFrom q r 0 (String d s) = String d (replaceAllFrom q r 0 s).
Proof.
  intros E. cbn [replaceAllFrom]. unfold q. now rewrite other_start.
Qed.

Lemma replace_same_start (s : string) :
  exists z, replaceAllFrom q r 0 (String D s) = String D z.
Proof.
  cbn [replaceAllFrom]. destruct (matchItems q (String D s)) as [[|n]|].
  - now eexists.
  - unfold r. cbn [append]. now eexists.
  - now eexists.
Qed.

(** What follows the first character reads the same before and after
    the replacement. *)
Lemma matchItems_after_replace (t : list item) :
  freeOf D t = true ->
  forall s, matchItems t (replaceAllFrom q r 0 s) = matchItems t s.
Proof.
  induction t as [|i t IH]; intros Fr s; trivial.
  cbn [freeOf forallb] in Fr. apply andb_true_iff in Fr as [Fi Ft].
  fold (freeOf D t) in Ft. apply negb_true_iff in Fi.
  specialize (IH Ft).
  destruct s as [|d s]; trivial.
  destruct (Ascii.eqb d D) eqn:E.
  - apply Ascii.eqb_eq in E. subst d.
    destruct (replace_same_start s) as [z Z].
    pose proof (IH (String D s)) as IHs. rewrite Z in IHs. rewrite Z.
    destruct i as [c|c]; cbn [itemChar] in Fi; cbn [matchItems].
    + rewrite Ascii.eqb_sym in Fi. now rewrite Fi.
    + rewrite Ascii.eqb_sym in Fi. rewrite Fi. exact IHs.
  - pose proof (IH (String d s)) as IHs.
    rewrite (replace_other_start _ _ E) in *.
    destruct i as [c|c]; cbn [matchItems].
    + destruct (Ascii.eqb d c); trivial. now rewrite IH.
    + destruct (Ascii.eqb d c); [|exact IHs].
      rewrite IH. now rewrite IHs.
Qed.

Lemma matchItems_head_after_replace (c : ascii) (s : string) :
  matchItems p (String c (replaceAllFrom q r 0 s))
  = matchItems p (String c s).
Proof.
  unfold p. cbn [matchItems]. destruct (Ascii.eqb c D); trivial.
  now rewrite matchItems_after_replace.
Qed.

Lemma covered_tail (c : ascii) (s : string) :
  covered p q (String c s) -> covered p q s.
Proof. now intros [_ H]. Qed.

Lemma unmatched_after_replace (s : string) (k : nat) :
  covered p q s -> unmatched p (replaceAllFrom q r k s) = true.
Proof.
  revert k; induction s as [|c s IH]; intros k C; [reflexivity|].
  pose proof (covered_tail _ _ C) as C'.
  cbn [replaceAllFrom]. destruct k as [|k]; [|now apply IH].
  destruct (matchItems q (String c s)) as [[|n]|] eqn:M.
  - unfold q in M. cbn in M. destruct (Ascii.eqb c D); [|discriminate].
    destruct (matchItems qtail s); discriminate.
  - apply r_blocks. now apply IH.
  - cbn [unmatched]. rewrite matchItems_head_after_replace.
    destruct C as [C _]. rewrite (C M). now apply IH.
Qed.

End TwoPatterns.

End ReplaceFacts.

(** ** Boolean defaults *)

Section BooleanDefaults.
Import Regex ReplaceFacts.

Lemma covered_refl (p : list item) (s : string) : covered p p s.
Proof. induction s as [|c s IH]; cbn [covered]; auto. Qed.

Lemma covered_unmatched (p q : list item) (s : string) :
  unmatched p s = true -> covered p q s.
Proof.
  induction s as [|c s IH]; cbn [covered unmatched];
    destruct (matchItems p _); try discriminate; auto.
Qed.

Lemma false_blocked_by_zero (y : string) :
  unmatched defaultFalse y = true ->
  unmatched defaultFalse ("DEFAULT 0" ++ y) = true.
Proof. intros U. cbn. exact U. Qed.

Lemma true_blocked_by_one (y : string) :
  unmatched defaultTrue y = true ->
  unmatched defaultTrue ("DEFAULT 1" ++ y) = true.
Proof. intros U. cbn. exact U. Qed.

Lemma false_blocked_by_one (y : string) :
  unmatched defaultFalse y = true ->
  unmatched defaultFalse ("DEFAULT 1" ++ y) = true.
Proof. intros U. cbn. exact U. Qed.

(** After the first pass no [DEFAULT false] is left. *)
Lemma false_pass_unmatched (s : string) :
  unmatched defaultFalse (replaceAll defaultFalse "DEFAULT 0" s) = true.
Proof.
  apply (unmatched_after_replace "D"%char (List.tl defaultFalse)
           (List.tl defaultFalse) "EFAULT 0" eq_refl false_blocked_by_zero).
  apply covered_refl.
Qed.

(** After the second pass no [DEFAULT true] is left. *)
Lemma true_pass_unmatched (s : string) :
  unmatched defaultTrue (replaceAll defaultTrue "DEFAULT 1" s) = true.
Proof.
  apply (unmatched_after_replace "D"%char (List.tl defaultTrue)
           (List.tl defaultTrue) "EFAULT 1" eq_refl true_blocked_by_one).
  apply covered_refl.
Qed.

(** The second pass brings no [DEFAULT false] back. *)
Lemma true_pass_keeps_false_unmatched (s : string) :
  unmatched defaultFalse s = true ->
  unmatched defaultFalse (replaceAll defaultTrue "DEFAULT 1" s) = true.
Proof.
  intros U.
  apply (unmatched_after_replace "D"%char (List.tl defaultFalse)
           (List.tl defaultTrue) "EFAULT 1" eq_refl false_blocked_by_one).
  now apply covered_unmatched.
Qed.

Lemma replaceBooleanDefaults_unmatched (sql : string) :
  unmatched defaultFalse (replaceBooleanDefaults sql) = true
  /\ unmatched defaultTrue (replaceBooleanDefaults sql) = true.
Proof.
  unfold replaceBooleanDefaults. split.
  - apply true_pass_keeps_false_unmatched, false_pass_unmatched.
  - apply true_pass_unmatched.
Qed.

Lemma replaceBooleanDefaults_fixed (sql : string) :
  unmatched defaultFalse sql = true ->
  unmatched defaultTrue sql = true ->
  replaceBooleanDefaults sql = sql.
Proof.
  intros F T. unfold replaceBooleanDefaults.
  rewrite (replaceAll_unmatched _ _ _ F).
  now apply replaceAll_unmatched.
Qed.

(** A text without [DEFAULT ] goes through the pass unchanged. *)
Lemma replaceBooleanDefaults_without_default (sql : string) :
  Js.includes sql "DEFAULT " = false -> replaceBooleanDefaults sql = sql.
Proof.
  intros N. apply replaceBooleanDefaults_fixed.
  - apply (unmatched_without_prefix "DEFAULT "). exact N.
  - apply (unmatched_without_prefix "DEFAULT "). exact N.
Qed.

End BooleanDefaults.

Example replaceBooleanDefaults_rewrites :
  replaceBooleanDefaults
    "a TINYINT(1) DEFAULT 'true', b TINYINT(1) DEFAULT true, c TINYINT(1) DEFAULT 'false', d TINYINT(1) DEFAULT false"
  = "a TINYINT(1) DEFAULT 1, b TINYINT(1) DEFAULT 1, c TINYINT(1) DEFAULT 0, d TINYINT(1) DEFAULT 0".
Proof. reflexivity. Qed.

(** C7: rewriting the boolean defaults twice gives the text that rewriting
    them once gives. *)
Theorem replaceBooleanDefaults_idempotent (sql : string) :
  replaceBooleanDefaults (replaceBooleanDefaults sql)
  = replaceBooleanDefaults sql.
Proof.
  destruct (replaceBooleanDefaults_unmatched sql) as [F T].
  now apply replaceBooleanDefaults_fixed.
Qed.

(** ** Composite primary keys *)

(** C1, as stated, fails.  The first definition below holds the marker text
    twice (once inside its default value), only the first is rewritten, and
    the column keeps an inline PRIMARY KEY next to the table constraint.
    And the pass over the boolean defaults rewrites the whole statement,
    names included: the constraint of the second table does not list the
    name of its first attribute. *)
Lemma createTableQuery_inline_marker_left :
  2 <= List.length
         (primaryKeyNames
            [("a", "TEXT DEFAULT 'PRIMARY KEY' PRIMARY KEY");
             ("b", "INTEGER PRIMARY KEY")])
  /\ createTableQuery quoteTableModel (TableString "t")
       [("a", "TEXT DEFAULT 'PRIMARY KEY' PRIMARY KEY");
        ("b", "INTEGER PRIMARY KEY")]
     = "CREATE TABLE IF NOT EXISTS `t` (`a` TEXT DEFAULT 'NOT NULL' PRIMARY KEY, `b` INTEGER NOT NULL, PRIMARY KEY (`a`, `b`));"
  /\ Js.includes
       (dataTypeString true "TEXT DEFAULT 'PRIMARY KEY' PRIMARY KEY")
       "PRIMARY KEY" = true
  /\ Js.countOccurrences
       (createTableQuery quoteTableModel (TableString "t")
          [("a", "TEXT DEFAULT 'PRIMARY KEY' PRIMARY KEY");
           ("b", "INTEGER PRIMARY KEY")])
       "PRIMARY KEY" = 2
  /\ createTableQuery quoteTableModel (TableString "t")
       [("DEFAULT true", "INTEGER PRIMARY KEY"); ("b", "TEXT PRIMARY KEY")]
     = "CREATE TABLE IF NOT EXISTS `t` (`DEFAULT 1` INTEGER NOT NULL, `b` TEXT NOT NULL, PRIMARY KEY (`DEFAULT 1`, `b`));"
  /\ Js.includes
       (createTableQuery quoteTableModel (TableString "t")
          [("DEFAULT true", "INTEGER PRIMARY KEY"); ("b", "TEXT PRIMARY KEY")])
       (quoteIdentifier "DEFAULT true") = false.
Proof. split; [simpl; lia|]. repeat split. Qed.

(** The attributes of the first table above are what [attributesToSQL]
    makes of a text column whose default value is the text PRIMARY KEY and
    of an integer column, both in the primary key. *)
Example inline_marker_input_from_attributes :
  attributesToSQL quoteTableModel Example.escape Example.defaultValueSchemable
    Example.toUpperCase
    [("a", AttributeObj
             (mkAttributeObject None "TEXT" None (JsString "PRIMARY KEY")
                                false true false None None None));
     ("b", AttributeObj
             (mkAttributeObject None "INTEGER" None JsUndefined
                                false true false None None None))]
    None
  = [("a", "TEXT DEFAULT 'PRIMARY KEY' PRIMARY KEY");
     ("b", "INTEGER PRIMARY KEY")].
Proof. reflexivity. Qed.

(** A table with one key keeps the inline form. *)
Example createTableQuery_single_key :
  createTableQuery quoteTableModel (TableString "t")
    [("id", "INTEGER PRIMARY KEY AUTOINCREMENT"); ("name", "TEXT NOT NULL");
     ("active", "TINYINT(1) DEFAULT true")]
  = "CREATE TABLE IF NOT EXISTS `t` (`id` INTEGER PRIMARY KEY AUTOINCREMENT, `name` TEXT NOT NULL, `active` TINYINT(1) DEFAULT 1);".
Proof. reflexivity. Qed.

(** C1, amended: with two or more definitions holding PRIMARY KEY, the
    statement is the boolean-default pass applied to
    [CREATE TABLE IF NOT EXISTS table (columns, PRIMARY KEY (names));]
    where the names are those of all the marked attributes, in the order of
    the attributes; the pass changes nothing when the text holds no
    [DEFAULT ]; and every column whose definition holds no marker, or one
    marker only, is left without inline PRIMARY KEY. *)
Theorem createTableQuery_composite_primary_key
        (quoteTable : TableName -> string) (name : TableName)
        (attributes : object string) :
  2 <= List.length (primaryKeyNames attributes) ->
  createTableQuery quoteTable name attributes
  = replaceBooleanDefaults
      ("CREATE TABLE IF NOT EXISTS " ++ quoteTable name ++ " ("
       ++ Js.join ", " (map (columnSql true) attributes)
       ++ ", PRIMARY KEY ("
       ++ Js.join ", " (map quoteIdentifier (primaryKeyNames attributes))
       ++ "));")
  /\ (Js.includes
        ("CREATE TABLE IF NOT EXISTS " ++ quoteTable name ++ " ("
         ++ Js.join ", " (map (columnSql true) attributes)
         ++ ", PRIMARY KEY ("
         ++ Js.join ", " (map quoteIdentifier (primaryKeyNames attributes))
         ++ "));") "DEFAULT " = false ->
      createTableQuery quoteTable name attributes
      = "CREATE TABLE IF NOT EXISTS " ++ quoteTable name ++ " ("
        ++ Js.join ", " (map (columnSql true) attributes)
        ++ ", PRIMARY KEY ("
        ++ Js.join ", " (map quoteIdentifier (primaryKeyNames attributes))
        ++ "));")
  /\ (forall entry,
        In entry attributes ->
        (Js.includes (snd entry) "PRIMARY KEY" = true ->
         singleMarker (snd entry) = true) ->
        Js.includes (dataTypeString true (snd entry)) "PRIMARY KEY" = false).
Proof.
  intros N. unfold createTableQuery.
  rewrite (createTableSql_composite _ _ N).
  split; [reflexivity|]. split.
  - apply replaceBooleanDefaults_without_default.
  - intros [attr dataType] _ S. cbn [snd] in *.
    destruct (Js.includes dataType "PRIMARY KEY") eqn:M.
    + apply dataTypeString_no_marker. now apply S.
    + unfold dataTypeString. now rewrite M.
Qed.

Lemma createTableQuery_composite_primary_key_witness :
  2 <= List.length
         (primaryKeyNames
            [("a", "INTEGER NOT NULL PRIMARY KEY"); ("b", "TEXT PRIMARY KEY");
             ("c", "TEXT")])
  /\ createTableQuery quoteTableModel (TableString "t")
       [("a", "INTEGER NOT NULL PRIMARY KEY"); ("b", "TEXT PRIMARY KEY");
        ("c", "TEXT")]
     = "CREATE TABLE IF NOT EXISTS `t` (`a` INTEGER NOT NULL, `b` TEXT NOT NULL, `c` TEXT, PRIMARY KEY (`a`, `b`));".
Proof.
  split; [simpl; lia|].
  apply (createTableQuery_composite_primary_key quoteTableModel
           (TableString "t")
           [("a", "INTEGER NOT NULL PRIMARY KEY"); ("b", "TEXT PRIMARY KEY");
            ("c", "TEXT")]).
  - simpl; lia.
  - reflexivity.
Defined.

(** C6, as stated, fails, both ways round: a definition without NOT NULL
    has its marker replaced by NOT NULL (it is not taken out, and the
    column does not stay nullable), and a definition with NOT NULL has its
    marker taken out (it is not replaced by a second NOT NULL). *)
Lemma composite_marker_nullable_becomes_not_null :
  Js.includes "INTEGER PRIMARY KEY" "NOT NULL" = false
  /\ dataTypeString true "INTEGER PRIMARY KEY" = "INTEGER NOT NULL"
  /\ dataTypeString true "INTEGER PRIMARY KEY" <> "INTEGER"
  /\ Js.includes "TEXT NOT NULL PRIMARY KEY" "NOT NULL" = true
  /\ dataTypeString true "TEXT NOT NULL PRIMARY KEY" = "TEXT NOT NULL"
  /\ dataTypeString true "TEXT NOT NULL PRIMARY KEY"
     <> "TEXT NOT NULL NOT NULL"
  /\ createTableQuery quoteTableModel (TableString "t")
       [("a", "INTEGER PRIMARY KEY"); ("b", "TEXT NOT NULL PRIMARY KEY")]
     = "CREATE TABLE IF NOT EXISTS `t` (`a` INTEGER NOT NULL, `b` TEXT NOT NULL, PRIMARY KEY (`a`, `b`));".
Proof. repeat split; try reflexivity; discriminate. Qed.

(** C6, amended: with two or more marked definitions, the text of a marked
    column is its definition with the first [ PRIMARY KEY] taken out when
    the definition holds NOT NULL, and with the first [PRIMARY KEY]
    replaced by [NOT NULL] otherwise; either way the column ends up
    NOT NULL. *)
Theorem composite_marker_stripped (attributes : object string) :
  2 <= List.length (primaryKeyNames attributes) ->
  attrArray (tableParts attributes) = map (columnSql true) attributes
  /\ forall attr dataType,
       In (attr, dataType) attributes ->
       Js.includes dataType "PRIMARY KEY" = true ->
       columnSql true (attr, dataType)
       = quoteIdentifier attr ++ " "
         ++ (if Js.includes dataType "NOT NULL"
             then Js.replace dataType " PRIMARY KEY" ""
             else Js.replace dataType "PRIMARY KEY" "NOT NULL")
       /\ Js.includes (dataTypeString true dataType) "NOT NULL" = true.
Proof.
  intros N. split.
  - rewrite tableParts_unfold.
    now rewrite (proj2 (needsMultiple_iff attributes) N).
  - intros attr dataType _ M. split.
    + unfold columnSql, dataTypeString. cbn [fst snd]. now rewrite M.
    + now apply dataTypeString_not_null.
Qed.

Lemma composite_marker_stripped_witness :
  2 <= List.length
         (primaryKeyNames
            [("a", "INTEGER PRIMARY KEY"); ("b", "TEXT NOT NULL PRIMARY KEY")])
  /\ attrArray
       (tableParts
          [("a", "INTEGER PRIMARY KEY"); ("b", "TEXT NOT NULL PRIMARY KEY")])
     = ["`a` INTEGER NOT NULL"; "`b` TEXT NOT NULL"].
Proof.
  split; [simpl; lia|].
  apply (composite_marker_stripped
           [("a", "INTEGER PRIMARY KEY"); ("b", "TEXT NOT NULL PRIMARY KEY")]).
  simpl; lia.
Defined.

(** ** Objects as ordered maps *)

Lemma distinct_NoDup (names : list string) :
  distinct names = true -> NoDup names.
Proof.
  induction names as [|name rest IH]; cbn [distinct]; intros D;
    constructor; apply andb_true_iff in D as [N D]; auto.
  intros I. apply negb_true_iff in N.
  assert (E : existsb (String.eqb name) rest = true)
    by (apply existsb_exists; exists name; split; trivial;
        apply String.eqb_refl).
  congruence.
Qed.

Lemma keys_objSet_new {A} (o : object A) (k : string) (v : A) :
  ~ In k (keys o) -> keys (objSet o k v) = List.app (keys o) [k].
Proof.
  induction o as [|[k' v'] o IH]; intros N; trivial.
  cbn [objSet]. destruct (String.eqb_spec k' k) as [->|D].
  - exfalso. apply N. now left.
  - cbn [keys map fst List.app]. f_equal. apply IH.
    intros I. apply N. now right.
Qed.

Lemma objDelete_absent {A} (o : object A) (k : string) :
  existsb (String.eqb k) (keys o) = false -> objDelete o k = o.
Proof.
  induction o as [|[k' v'] o IH]; trivial.
  cbn [keys map fst existsb]. intros E.
  apply orb_false_iff in E as [E1 E2].
  unfold objDelete. cbn [filter fst].
  rewrite String.eqb_sym, E1. cbn [negb]. f_equal. now apply IH.
Qed.

Lemma objDelete_length {A} (o : object A) (k : string) :
  distinct (keys o) = true ->
  existsb (String.eqb k) (keys o) = true ->
  S (List.length (objDelete o k)) = List.length o.
Proof.
  induction o as [|[k' v'] o IH]; [discriminate|].
  cbn [keys map fst distinct existsb]. intros D E.
  apply andb_true_iff in D as [N D]. apply negb_true_iff in N.
  unfold objDelete. cbn [filter fst].
  destruct (String.eqb_spec k' k) as [->|Ne]; cbn [negb].
  - fold (objDelete o k). now rewrite objDelete_absent.
  - fold (objDelete o k). cbn [List.length]. f_equal. apply IH; trivial.
    apply orb_true_iff in E as [E|E]; trivial.
    apply String.eqb_eq in E. congruence.
Qed.

Lemma objDelete_in {A} (o : object A) (k : string) (e : string * A) :
  In e (objDelete o k) -> In e o /\ fst e <> k.
Proof.
  unfold objDelete. rewrite filter_In, negb_true_iff, String.eqb_neq. tauto.
Qed.

Lemma objGet_in {A} (o : object A) (k : string) (a : A) :
  objGet o k = Some a -> In (k, a) o.
Proof.
  induction o as [|[k' v'] o IH]; [discriminate|].
  cbn [objGet]. destruct (String.eqb_spec k' k) as [->|Ne].
  - intros [= ->]. now left.
  - intros G. right. now apply IH.
Qed.

Lemma NoDup_map_injective {A B} (f : A -> B) (l : list A) (x y : A) :
  NoDup (map f l) -> In x l -> In y l -> f x = f y -> x = y.
Proof.
  induction l as [|z l IH]; [contradiction|].
  cbn [map]. intros N Ix Iy E. inversion N as [|? ? Nz Nl]; subst.
  destruct Ix as [->|Ix], Iy as [->|Iy]; trivial.
  - exfalso. apply Nz. rewrite E. now apply in_map.
  - exfalso. apply Nz. rewrite <- E. now apply in_map.
  - now apply IH.
Qed.

(** ** Table recreation *)

Section Recreation.

Variable quoteTable : TableName -> string.
Variable escape : JsValue -> option AttributeObject -> EscapeOptions -> string.
Variable defaultValueSchemable : JsValue -> bool.
Variable toUpperCase : string -> string.

Local Abbreviation toSQL :=
  (attributesToSQL quoteTable escape defaultValueSchemable toUpperCase).
Local Abbreviation createTable := (createTableQuery quoteTable).
Local Abbreviation removeColumn :=
  (removeColumnQuery quoteTable escape defaultValueSchemable toUpperCase).
Local Abbreviation renameColumn :=
  (renameColumnQuery quoteTable escape defaultValueSchemable toUpperCase).

Lemma attributesToSQL_fold (context : option string)
      (attributes : object Attribute) (acc : object string) :
  NoDup (List.app (keys acc) (map columnName attributes)) ->
  keys (fold_left
          (addAttributeSql quoteTable escape defaultValueSchemable
                           toUpperCase context)
          attributes acc)
  = List.app (keys acc) (map columnName attributes).
Proof.
  revert acc; induction attributes as [|[name dataType] rest IH];
    intros acc N.
  - cbn. now rewrite app_nil_r.
  - cbn [fold_left map].
    assert (K : forall sql,
               keys (objSet acc (columnName (name, dataType)) sql)
               = List.app (keys acc) [columnName (name, dataType)]).
    { intros sql. apply keys_objSet_new.
      apply NoDup_remove_2 in N. intros I. apply N.
      apply in_or_app. now left. }
    assert (S : exists sql,
               addAttributeSql quoteTable escape defaultValueSchemable
                               toUpperCase context acc (name, dataType)
               = objSet acc (columnName (name, dataType)) sql).
    { unfold addAttributeSql, columnName. cbn [fst snd].
      destruct dataType as [sql|o]; now eexists. }
    destruct S as [sql ->]. rewrite IH; rewrite K.
    + now rewrite <- app_assoc.
    + cbn [map] in N. now rewrite <- app_assoc.
Qed.

(** With different column names, the keys of [attributesToSQL] are the
    column names, in the order of the attributes. *)
Lemma attributesToSQL_keys (context : option string)
      (attributes : object Attribute) :
  distinct (map columnName attributes) = true ->
  keys (toSQL attributes context) = map columnName attributes.
Proof.
  intros D. unfold attributesToSQL.
  rewrite attributesToSQL_fold; trivial.
  now apply distinct_NoDup.
Qed.

Lemma removeColumnQuery_statements (name : TableName)
      (attributes : object Attribute) :
  removeColumn name attributes
  = String.concat ""
      [createTable (backupTableName name) (toSQL attributes None);
       "INSERT INTO " ++ quoteTable (backupTableName name) ++ " SELECT "
       ++ Js.join ", " (map quoteIdentifier (keys (toSQL attributes None)))
       ++ " FROM " ++ quoteTable name ++ ";";
       "DROP TABLE " ++ quoteTable name ++ ";";
       "ALTER TABLE " ++ quoteTable (backupTableName name) ++ " RENAME TO "
       ++ quoteTable name ++ ";"].
Proof.
  unfold removeColumnQuery.
  generalize (createTableQuery quoteTable (backupTableName name)
                (attributesToSQL quoteTable escape defaultValueSchemable
                   toUpperCase attributes None)).
  generalize (Js.join ", "
                (map quoteIdentifier
                   (keys (attributesToSQL quoteTable escape
                            defaultValueSchemable toUpperCase attributes
                            None)))).
  generalize (quoteTable (backupTableName name)), (quoteTable name).
  intros q b names create. cbn [String.concat].
  repeat rewrite JsFacts.append_assoc. reflexivity.
Qed.

Lemma renameColumnQuery_statements (name : TableName)
      (attrNameBefore attrNameAfter : string)
      (attributes : object Attribute) :
  renameColumn name attrNameBefore attrNameAfter attributes
  = String.concat ""
      [createTable (backupTableName name) (toSQL attributes None);
       "INSERT INTO " ++ quoteTable (backupTableName name) ++ " SELECT "
       ++ Js.join ", " (map (importName attrNameBefore attrNameAfter)
                            (keys (toSQL attributes None)))
       ++ " FROM " ++ quoteTable name ++ ";";
       "DROP TABLE " ++ quoteTable name ++ ";";
       createTable name (toSQL attributes None);
       "INSERT INTO " ++ quoteTable name ++ " SELECT "
       ++ Js.join ", " (map quoteIdentifier (keys (toSQL attributes None)))
       ++ " FROM " ++ quoteTable (backupTableName name) ++ ";";
       "DROP TABLE " ++ quoteTable (backupTableName name) ++ ";"].
Proof.
  unfold renameColumnQuery.
  generalize (createTableQuery quoteTable (backupTableName name)
                (attributesToSQL quoteTable escape defaultValueSchemable
                   toUpperCase attributes None)).
  generalize (createTableQuery quoteTable name
                (attributesToSQL quoteTable escape defaultValueSchemable
                   toUpperCase attributes None)).
  generalize (keys (attributesToSQL quoteTable escape
                      defaultValueSchemable toUpperCase attributes None)).
  generalize (quoteTable (backupTableName name)), (quoteTable name).
  intros q b names create createBackup. cbn [String.concat].
  generalize (Js.join ", " (map (importName attrNameBefore attrNameAfter) names)).
  generalize (Js.join ", " (map quoteIdentifier names)).
  intros exported imported.
  repeat rewrite JsFacts.append_assoc. reflexivity.
Qed.



End Recreation.




(** ** UPDATE and DELETE with a limit *)

Lemma trimEnd_fixed (s : string) (c : ascii) :
  Js.lastChar s = Some c -> Regex.isSpace c = false -> trimEnd s = s.
Proof.
  induction s as [|d s IH]; intros L N; trivial.
  cbn [trimEnd]. destruct s as [|e s].
  - injection L as ->. cbn [trimEnd]. now rewrite N.
  - change (Js.lastChar (String d (String e s)))
      with (Js.lastChar (String e s)) in L.
    now rewrite (IH L N).
Qed.

Lemma trim_between (c d : ascii) (a b : string) :
  Regex.isSpace c = false -> Regex.isSpace d = false ->
  trim (String c a ++ b ++ String d "") = String c a ++ b ++ String d "".
Proof.
  intros Nc Nd. unfold trim. cbn [append trimStart]. rewrite Nc.
  apply (trimEnd_fixed _ d); trivial.
  change (String c (a ++ b ++ String d ""))
    with (String c a ++ b ++ String d "").
  rewrite <- JsFacts.append_assoc. apply JsFacts.lastChar_append.
Qed.

Lemma delete_with_limit_trimmed (q w e : string) :
  trim ("DELETE FROM " ++ q ++ " "
        ++ ("WHERE rowid IN (SELECT rowid FROM " ++ q ++ " " ++ w
            ++ " LIMIT " ++ e ++ ")"))
  = "DELETE FROM " ++ q ++ " WHERE rowid IN (SELECT rowid FROM " ++ q ++ " "
    ++ w ++ " LIMIT " ++ e ++ ")".
Proof.
  transitivity
    (trim (String "D" "ELETE FROM "
           ++ (q ++ " WHERE rowid IN (SELECT rowid FROM " ++ q ++ " " ++ w
               ++ " LIMIT " ++ e) ++ ")")).
  - f_equal. repeat rewrite JsFacts.append_assoc. reflexivity.
  - rewrite trim_between by reflexivity.
    repeat rewrite JsFacts.append_assoc. reflexivity.
Qed.

Lemma update_with_limit_trimmed (q a w e : string) :
  trim ("UPDATE " ++ q ++ " SET " ++ a
        ++ " WHERE rowid IN (SELECT rowid FROM " ++ q ++ " " ++ w
        ++ " LIMIT " ++ e ++ ")")
  = "UPDATE " ++ q ++ " SET " ++ a
    ++ " WHERE rowid IN (SELECT rowid FROM " ++ q ++ " " ++ w
    ++ " LIMIT " ++ e ++ ")".
Proof.
  transitivity
    (trim (String "U" "PDATE "
           ++ (q ++ " SET " ++ a ++ " WHERE rowid IN (SELECT rowid FROM "
               ++ q ++ " " ++ w ++ " LIMIT " ++ e) ++ ")")).
  - f_equal. repeat rewrite JsFacts.append_assoc. reflexivity.
  - rewrite trim_between by reflexivity.
    repeat rewrite JsFacts.append_assoc. reflexivity.
Qed.

Lemma lastChar_closing (a : string) : Js.lastChar (a ++ ")") = Some ")"%char.
Proof. apply JsFacts.lastChar_append. Qed.

Section Limit.

Variable quoteTable : TableName -> string.
Variable escape : JsValue -> option AttributeObject -> EscapeOptions -> string.
Variable format :
  JsValue -> option AttributeObject -> JsValue -> Binder -> Bind -> string * Bind.
Variable removeNullishValuesFromHash :
  object JsValue -> JsValue -> Options -> object JsValue.
Variable defaultBinder : Binder.
Variable Where : Type.
Variable Model : Type.
Variable whereQuery : Where -> Options -> Bind -> string * Bind.
Variable getWhereConditions : Where -> option Model -> Options -> string.
Variable generatorOptions : Options.

Local Abbreviation delete :=
  (deleteQuery quoteTable escape Where Model getWhereConditions
               generatorOptions).
Local Abbreviation update :=
  (updateQuery quoteTable escape format removeNullishValuesFromHash
               defaultBinder Where whereQuery generatorOptions).

Lemma positive_limit_kept (options : Options) (n : Z) :
  limit options = JsNumber n -> (0 < n)%Z ->
  limit (defaults options generatorOptions) = JsNumber n
  /\ truthy (limit (defaults options generatorOptions)) = true.
Proof.
  intros L P. unfold defaults. cbn [limit]. rewrite L. cbn.
  split; trivial. apply negb_true_iff, Z.eqb_neq. lia.
Qed.


End Limit.


(** The two statements of the witness, in full. *)
Example delete_with_limit_example :
  deleteQuery quoteTableModel Example.escape string unit
    Example.getWhereConditions Example.noOptions (TableString "users")
    "`id` = 3"
    (Some (mkOptions (JsNumber 1) BindParamUndefined JsUndefined JsUndefined))
    None
  = "DELETE FROM `users` WHERE rowid IN (SELECT rowid FROM `users` WHERE `id` = 3 LIMIT 1)".
Proof. reflexivity. Qed.

Example update_with_limit_example :
  updateQuery quoteTableModel Example.escape Example.format
    Example.removeNullishValuesFromHash Example.binder string
    Example.whereQuery Example.noOptions (TableString "users")
    [("name", JsString "x"); ("n", JsMethod "n + 1")] "`id` = 3"
    (Some (mkOptions (JsNumber 2) BindParamUndefined JsUndefined JsUndefined))
    None
  = mkUpdateResult
      "UPDATE `users` SET `name`=$1,`n`=n + 1 WHERE rowid IN (SELECT rowid FROM `users` WHERE `id` = 3 LIMIT 2)"
      (Some [("1", JsString "x")]).
Proof. reflexivity. Qed.

(** * Further properties of the generator *)

(** ** LIMIT and OFFSET *)

(** [addLimitAndOffset] never writes OFFSET without a LIMIT before it: an
    offset without a limit gets the limit [-1]; the fragment is empty
    exactly when there is neither a limit nor an offset, so a limit of 0
    is written; and a fragment that is not empty begins with [ LIMIT ]. *)
Theorem addLimitAndOffset_limit_before_offset
        (escapePaging : JsValue -> Paging.Options -> string)
        (options : Paging.Options) :
  (truthy (Paging.offset options) = true ->
   notNullish (Paging.limit options) = false ->
   addLimitAndOffset escapePaging options
   = " LIMIT -1 OFFSET " ++ escapePaging (Paging.offset options) options)
  /\ (truthy (Paging.offset options) = true ->
      notNullish (Paging.limit options) = true ->
      addLimitAndOffset escapePaging options
      = " LIMIT " ++ escapePaging (Paging.limit options) options
        ++ " OFFSET " ++ escapePaging (Paging.offset options) options)
  /\ (addLimitAndOffset escapePaging options = ""
      <-> notNullish (Paging.limit options) = false
          /\ truthy (Paging.offset options) = false)
  /\ (addLimitAndOffset escapePaging options <> "" ->
      Js.startsWith (addLimitAndOffset escapePaging options) " LIMIT " = true).
Proof.
  unfold addLimitAndOffset, Js.startsWith.
  destruct (notNullish (Paging.limit options)),
           (truthy (Paging.offset options)); cbn [append].
  - split; [discriminate|]. split; [reflexivity|].
    split; [split; [discriminate | intros [? ?]; discriminate]|].
    intros _. apply (JsFacts.prefix_append " LIMIT ").
  - split; [discriminate|]. split; [discriminate|].
    split; [split; [discriminate | intros [? ?]; discriminate]|].
    intros _. apply (JsFacts.prefix_append " LIMIT ").
  - split; [reflexivity|]. split; [discriminate|].
    split; [split; [discriminate | intros [? ?]; discriminate]|].
    intros _. apply (JsFacts.prefix_append " LIMIT ").
  - split; [discriminate|]. split; [discriminate|].
    split; [split; trivial; now split|].
    intros N. now elim N.
Qed.

Lemma addLimitAndOffset_limit_before_offset_witness :
  truthy (JsNumber 20) = true
  /\ notNullish JsUndefined = false
  /\ addLimitAndOffset ExampleQueries.escapePaging
       (Paging.mkOptions JsUndefined (JsNumber 20))
     = " LIMIT -1 OFFSET 20".
Proof.
  split; [reflexivity|]. split; [reflexivity|].
  apply (addLimitAndOffset_limit_before_offset ExampleQueries.escapePaging
           (Paging.mkOptions JsUndefined (JsNumber 20))); reflexivity.
Defined.

(** ** Quoting, again *)

Lemma removeTicks_append (a b : string) (q : ascii) :
  Utils.removeTicks (a ++ b) q
  = Utils.removeTicks a q ++ Utils.removeTicks b q.
Proof.
  induction a as [|c a IH]; simpl; trivial.
  destruct (Ascii.eqb c q); simpl; now rewrite IH.
Qed.

Lemma removeTicks_keeps_clean (s : string) (q c : ascii) :
  Js.hasChar c s = false -> Js.hasChar c (Utils.removeTicks s q) = false.
Proof.
  induction s as [|d s IH]; simpl; trivial.
  intros H. apply orb_false_iff in H as [H1 H2].
  destruct (Ascii.eqb d q); simpl; [now apply IH|].
  now rewrite H1, IH.
Qed.

Lemma append_cancel_last (a b : string) (c : ascii) :
  a ++ String c "" = b ++ String c "" -> a = b.
Proof.
  revert b; induction a as [|x a IH]; intros [|y b] H; simpl in H; trivial.
  - injection H as _ H. destruct b; discriminate.
  - injection H as _ H. destruct a; discriminate.
  - injection H as -> H. f_equal. now apply IH.
Qed.

(** Quoting a quoted identifier changes nothing (the backticks of the first
    quoting are taken out and put back), and two identifiers are quoted the
    same exactly when they are the same once their backticks are deleted:
    the quoting does not tell [a`b] from [ab]. *)
Theorem quoteIdentifier_idempotent_and_collisions (a b : string) :
  quoteIdentifier (quoteIdentifier a) = quoteIdentifier a
  /\ (quoteIdentifier a = quoteIdentifier b
      <-> Utils.removeTicks a backtick = Utils.removeTicks b backtick).
Proof.
  split.
  - rewrite (quoteIdentifier_unfold (quoteIdentifier a)).
    rewrite (quoteIdentifier_unfold a) at 1.
    rewrite !removeTicks_append. cbn [Utils.removeTicks].
    rewrite Ascii.eqb_refl. cbn [append].
    rewrite removeTicks_idempotent, JsFacts.append_empty_r.
    symmetry. apply quoteIdentifier_unfold.
  - rewrite !quoteIdentifier_unfold. split.
    + cbn [append]. intros [= H]. now apply append_cancel_last in H.
    + now intros ->.
Qed.

(** ** TRUNCATE *)

(** With [restartIdentity], the sequence row of the table is deleted too,
    and the table name is compared as a text literal that holds neither a
    backtick nor a single quote, so that the literal cannot be closed from
    inside; without it the statement is the plain DELETE. *)
Theorem truncateTableQuery_name_literal
        (quoteTable : TableName -> string) (name : TableName)
        (restartIdentity : JsValue) :
  (truthy restartIdentity = true ->
   truncateTableQuery quoteTable name restartIdentity
   = "DELETE FROM " ++ quoteTable name
     ++ "; DELETE FROM " ++ quoteTable (TableString "sqlite_sequence")
     ++ " WHERE `name` = '"
     ++ Utils.removeTicks (Utils.removeTicks (quoteTable name) backtick) "'"
     ++ "';")
  /\ (truthy restartIdentity = false ->
      truncateTableQuery quoteTable name restartIdentity
      = "DELETE FROM " ++ quoteTable name)
  /\ Js.hasChar backtick
       (Utils.removeTicks (Utils.removeTicks (quoteTable name) backtick) "'")
     = false
  /\ Js.hasChar "'"
       (Utils.removeTicks (Utils.removeTicks (quoteTable name) backtick) "'")
     = false.
Proof.
  unfold truncateTableQuery, Js.join. cbn [String.concat].
  generalize (quoteTable (TableString "sqlite_sequence")).
  generalize (quoteTable name). intros q sq.
  split; [|split; [|split]].
  - intros ->. unfold Utils.addTicks.
    generalize (Utils.removeTicks (Utils.removeTicks q backtick) "'").
    intros body. cbn [append].
    repeat rewrite JsFacts.append_assoc. reflexivity.
  - intros ->. now rewrite JsFacts.append_empty_r.
  - apply removeTicks_keeps_clean, removeTicks_clean.
  - apply removeTicks_clean.
Qed.

Lemma truncateTableQuery_name_literal_witness :
  truthy (JsBool true) = true
  /\ truncateTableQuery quoteTableModel (TableString "o'hara`s") (JsBool true)
     = "DELETE FROM `o'haras`; DELETE FROM `sqlite_sequence` WHERE `name` = 'oharas';".
Proof.
  split; [reflexivity|].
  apply (truncateTableQuery_name_literal quoteTableModel
           (TableString "o'hara`s") (JsBool true)).
  reflexivity.
Defined.

(** ** The JSON statement check, again *)

(** The [while] loop always ends: a turn that continues moves
    [currentIndex] forward by at least one character, so the loop ends
    after at most as many turns as the statement has characters, in one
    state only, which [scan] computes. *)
Theorem check_loop_terminates (stmt : string) :
  (forall st st', scanStep stmt st = inl st' ->
                  currentIndex st < currentIndex st')
  /\ loopRuns stmt scanStart (scan stmt)
  /\ (forall final, loopRuns stmt scanStart final -> final = scan stmt).
Proof.
  split; [|split].
  - intros st st'. apply scanStep_progress.
  - apply scanLoop_runs. simpl. lia.
  - intros final R. symmetry. now apply scan_final.
Qed.

Lemma jsonFunctionRegex_prefix (s matched : string) :
  Regex.jsonFunctionRegex s = Some matched ->
  exists n, matched = Js.take n s.
Proof.
  unfold Regex.jsonFunctionRegex.
  destruct (Regex.prefixNoCase _ _); [|discriminate].
  destruct (Regex.matchArguments _) as [a|]; [|discriminate].
  intros [= <-]. now eexists.
Qed.

Lemma occurs_drop (p s : string) (i : nat) :
  Js.occurs p (Js.drop i s) -> Js.occurs p s.
Proof.
  intros O. rewrite <- (JsFacts.take_drop i s).
  now apply JsFacts.occurs_append_r.
Qed.

Lemma occurs_take (p s : string) (n : nat) :
  Js.occurs p (Js.take n s) -> Js.occurs p s.
Proof.
  intros O. rewrite <- (JsFacts.take_drop n s).
  now apply JsFacts.occurs_append_l.
Qed.

(** A JSON function is found only where a parenthesis is. *)
Lemma jsonFunctionRegex_needs_parenthesis (stmt : string) (i : nat) :
  Js.includes stmt "(" = false ->
  Regex.jsonFunctionRegex (Js.sliceFrom stmt i) = None.
Proof.
  intros N. unfold Js.sliceFrom.
  destruct (Regex.jsonFunctionRegex _) as [matched|] eqn:F; trivial.
  exfalso. apply JsFacts.not_includes in N. apply N.
  destruct (jsonFunctionRegex_prefix _ _ F) as [n ->].
  apply jsonFunctionRegex_parenthesis in F as [j F].
  apply (occurs_drop _ _ i), (occurs_take _ _ n).
  apply JsFacts.includes_occurs. unfold Js.includes. now rewrite F.
Qed.

Lemma scanStep_keeps_plain (stmt : string) (st : ScanState) :
  Js.includes stmt "(" = false ->
  hasJsonFunction st = false ->
  match scanStep stmt st with
  | inl st' | inr st' => hasJsonFunction st' = false
  end.
Proof.
  intros N H. unfold scanStep.
  rewrite (jsonFunctionRegex_needs_parenthesis _ _ N).
  destruct (Regex.tokenCaptureRegex _) as [[len tok]|]; trivial.
  destruct (String.eqb tok "("); trivial.
  destruct (String.eqb tok ")"); trivial.
  destruct (String.eqb tok ";"); trivial.
Qed.

Lemma scanLoop_keeps_plain (fuel : nat) (stmt : string) (st : ScanState) :
  Js.includes stmt "(" = false ->
  hasJsonFunction st = false ->
  hasJsonFunction (scanLoop fuel stmt st) = false.
Proof.
  intros N. revert st; induction fuel as [|fuel IH]; intros st H;
    cbn [scanLoop]; destruct (String.length stmt <=? currentIndex st);
    trivial.
  pose proof (scanStep_keeps_plain stmt st N H) as K.
  destruct (scanStep stmt st) as [st'|st']; auto.
Qed.

(** A statement without an opening parenthesis is never taken for a JSON
    function, and never rejected: the check answers [false], whatever
    else the statement holds (semicolons, closing parentheses). *)
Theorem check_without_parenthesis_is_false (stmt : string) :
  Js.includes stmt "(" = false ->
  _checkValidJsonStatement (JsString stmt) = Ok false.
Proof.
  intros N. cbn [_checkValidJsonStatement]. unfold checkAfterScan.
  assert (H : hasJsonFunction (scan stmt) = false)
    by now apply scanLoop_keeps_plain.
  now rewrite H.
Qed.

Lemma check_without_parenthesis_is_false_witness :
  _checkValidJsonStatement (JsString "data.a); DROP TABLE users;") = Ok false.
Proof.
  apply (check_without_parenthesis_is_false "data.a); DROP TABLE users;").
  reflexivity.
Defined.

Lemma scanStep_keeps_function (stmt : string) (st : ScanState) :
  hasJsonFunction st = true ->
  match scanStep stmt st with
  | inl st' | inr st' => hasJsonFunction st' = true
  end.
Proof.
  intros H. unfold scanStep.
  destruct (Regex.jsonFunctionRegex _); trivial.
  destruct (Regex.tokenCaptureRegex _) as [[len tok]|]; trivial.
  destruct (String.eqb tok "("); trivial.
  destruct (String.eqb tok ")"); trivial.
  destruct (String.eqb tok ";"); trivial.
Qed.

Lemma scanLoop_keeps_function (fuel : nat) (stmt : string) (st : ScanState) :
  hasJsonFunction st = true ->
  hasJsonFunction (scanLoop fuel stmt st) = true.
Proof.
  revert st; induction fuel as [|fuel IH]; intros st H;
    cbn [scanLoop]; destruct (String.length stmt <=? currentIndex st);
    trivial.
  pose proof (scanStep_keeps_function stmt st H) as K.
  destruct (scanStep stmt st) as [st'|st']; auto.
Qed.

Lemma scan_of_function (stmt matched : string) :
  Regex.jsonFunctionRegex stmt = Some matched ->
  hasJsonFunction (scan stmt) = true.
Proof.
  intros F. unfold scan.
  destruct stmt as [|c stmt]; [discriminate|].
  cbn [String.length scanLoop scanStart currentIndex Nat.leb].
  unfold scanStep. cbn [currentIndex scanStart Js.sliceFrom Js.drop].
  rewrite F. now apply scanLoop_keeps_function.
Qed.

Lemma check_of_function_core (stmt matched : string) :
  Regex.jsonFunctionRegex stmt = Some matched ->
  _checkValidJsonStatement (JsString stmt) = Ok true
  \/ _checkValidJsonStatement (JsString stmt)
     = Throw ("Invalid json statement: " ++ stmt).
Proof.
  intros F. cbn [_checkValidJsonStatement]. unfold checkAfterScan.
  rewrite (scan_of_function _ _ F).
  destruct (_ || _); [right | left]; reflexivity.
Qed.

(** A statement that begins with a JSON function call (blanks, a name
    like [json_extract], a parenthesis and somewhere a closing one) is never
    answered [false]: the check answers [true] or throws. *)
Theorem check_of_function_is_true_or_throws (stmt matched : string) :
  Regex.jsonFunctionRegex stmt = Some matched ->
  _checkValidJsonStatement (JsString stmt) = Ok true
  \/ _checkValidJsonStatement (JsString stmt)
     = Throw ("Invalid json statement: " ++ stmt).
Proof.
  intros F. cbn [_checkValidJsonStatement]. unfold checkAfterScan.
  rewrite (scan_of_function _ _ F).
  destruct (_ || _); [right | left]; reflexivity.
Qed.

Lemma check_of_function_is_true_or_throws_witness :
  Regex.jsonFunctionRegex "  JSON_array_length(`tags`) > 2"
  = Some "  JSON_array_length(`tags`)"
  /\ (_checkValidJsonStatement (JsString "  JSON_array_length(`tags`) > 2")
      = Ok true
      \/ _checkValidJsonStatement (JsString "  JSON_array_length(`tags`) > 2")
         = Throw "Invalid json statement:   JSON_array_length(`tags`) > 2").
Proof.
  split; [reflexivity|].
  apply (check_of_function_is_true_or_throws
           "  JSON_array_length(`tags`) > 2" "  JSON_array_length(`tags`)").
  reflexivity.
Defined.

Lemma letter_j_is_word (c : ascii) :
  Regex.eqbNoCase "j" c = true -> Regex.isWord c = true.
Proof.
  destruct c as [[] [] [] [] [] [] [] []]; vm_compute; trivial.
Qed.

Lemma unknown_character_no_function (c : ascii) (rest : string) :
  Regex.isSpace c = false -> Regex.isWord c = false ->
  Regex.jsonFunctionRegex (String c rest) = None.
Proof.
  intros S W. unfold Regex.jsonFunctionRegex.
  cbn [Regex.countSpaces]. rewrite S. cbn [Js.drop Regex.prefixNoCase].
  destruct (Regex.eqbNoCase "j" c) eqn:J; trivial.
  apply letter_j_is_word in J. congruence.
Qed.

Lemma unknown_character_no_token (c : ascii) (rest : string) :
  Regex.isSpace c = false -> Regex.isWord c = false ->
  Regex.isQuote c = false -> Regex.isPunctuation c = false ->
  Regex.tokenCaptureRegex (String c rest) = None.
Proof.
  intros S W Q P. unfold Regex.tokenCaptureRegex.
  cbn [Regex.countSpaces]. rewrite S.
  cbn [Regex.matchAfterSpaces Js.drop Regex.matchToken Regex.countSpaceOrWord].
  now rewrite Q, S, W, P.
Qed.

(** The loop stops at the first character that begins no token, and what
    comes after it is not looked at: when a character that is no blank, no
    word character, no quote and none of [()+,.;-] follows a JSON
    extraction, the check answers [true] whatever comes next, a semicolon
    and a second statement included. *)
Theorem check_stops_at_unknown_character (c : ascii) (rest : string) :
  Regex.isSpace c = false -> Regex.isWord c = false ->
  Regex.isQuote c = false -> Regex.isPunctuation c = false ->
  _checkValidJsonStatement
    (JsString ("json_extract(col,'$.a')" ++ String c rest))
  = Ok true.
Proof.
  intros S W Q P. cbn [_checkValidJsonStatement].
  rewrite (scan_final _ (mkScan 23 1 1 true false)); [reflexivity|].
  do 6 (eapply loop_continue; [simpl; lia | vm_compute; reflexivity | ]).
  apply loop_break; [simpl; lia|].
  unfold scanStep, Js.sliceFrom. cbn [currentIndex].
  change (Js.drop 23 ("json_extract(col,'$.a')" ++ String c rest))
    with (String c rest).
  rewrite (unknown_character_no_function c rest S W).
  now rewrite (unknown_character_no_token c rest S W Q P).
Qed.

Lemma check_stops_at_unknown_character_witness :
  _checkValidJsonStatement
    (JsString "json_extract(col,'$.a')=1; DROP TABLE users;")
  = Ok true.
Proof.
  apply (check_stops_at_unknown_character "="%char "1; DROP TABLE users;");
    reflexivity.
Defined.

(** ** JSON paths *)

Module PathFacts.
Import IndexRegex.

Lemma concat_cons (x : string) (l : list string) :
  String.concat "" (x :: l) = x ++ String.concat "" l.
Proof.
  destruct l; simpl; trivial. now rewrite JsFacts.append_empty_r.
Qed.

Lemma dotted_cons (s : string) (rest : list string) :
  dotted (s :: rest) = "." ++ s ++ dotted rest.
Proof. unfold dotted. cbn [map]. now rewrite concat_cons. Qed.

Lemma join_dotted (head : string) (segments : list string) :
  Js.join "." (head :: segments) = head ++ dotted segments.
Proof.
  unfold Js.join. revert head.
  induction segments as [|s rest IH]; intros head.
  - simpl. now rewrite JsFacts.append_empty_r.
  - change (String.concat "." (head :: s :: rest))
      with (head ++ "." ++ String.concat "." (s :: rest)).
    now rewrite IH, dotted_cons.
Qed.

Lemma dotted_endsSegment (segments : list string) :
  endsSegment (dotted segments).
Proof.
  destruct segments as [|s rest]; [now left|].
  right. rewrite dotted_cons. cbn [append]. now eexists.
Qed.

Lemma countDigits_endsSegment (t : string) :
  endsSegment t -> countDigits t = 0.
Proof. intros [->|[r ->]]; reflexivity. Qed.

Lemma countDigits_le (s : string) : countDigits s <= String.length s.
Proof.
  induction s as [|c s IH]; simpl; trivial.
  destruct (isDigit c); simpl; lia.
Qed.

Lemma countDigits_all (s t : string) :
  countDigits s = String.length s ->
  countDigits (s ++ t) = String.length s + countDigits t.
Proof.
  induction s as [|c s IH]; simpl; trivial.
  destruct (isDigit c); [|discriminate]. intros [= H]. now rewrite IH.
Qed.

Lemma countDigits_stops (s t : string) :
  countDigits s < String.length s ->
  countDigits (s ++ t) = countDigits s
  /\ exists d r, Js.drop (countDigits s) (s ++ t) = String d (r ++ t)
                 /\ isDigit d = false
                 /\ Js.hasChar d s = true.
Proof.
  induction s as [|c s IH]; simpl; [lia|].
  destruct (isDigit c) eqn:D.
  - intros L. destruct IH as [E [d [r [Dr [Nd In]]]]]; [lia|].
    rewrite E. split; trivial. exists d, r. cbn [Js.drop].
    repeat split; trivial. rewrite In. apply orb_true_r.
  - intros _. split; trivial. exists c, s. cbn [Js.drop].
    repeat split; trivial. now rewrite Ascii.eqb_refl.
Qed.

Lemma copy_without_dot (a b : string) :
  Js.hasChar "." a = false ->
  bracketIndexesFrom 0 (a ++ b) = a ++ bracketIndexesFrom 0 b.
Proof.
  induction a as [|c a IH]; intros H; trivial.
  cbn [Js.hasChar] in H. apply orb_false_iff in H as [H1 H2].
  cbn [append bracketIndexesFrom matchIndex]. rewrite H1.
  now rewrite IH.
Qed.

Lemma skip_match (a b : string) :
  bracketIndexesFrom (String.length a) (a ++ b) = bracketIndexesFrom 0 b.
Proof. induction a as [|c a IH]; trivial. Qed.

Lemma matchIndex_index (s t : string) :
  isIndex s = true -> endsSegment t ->
  matchIndex (String "." (s ++ t)) = Some (String.length s).
Proof.
  unfold isIndex. rewrite andb_true_iff, negb_true_iff, Nat.eqb_eq.
  intros [N A] T. cbn [matchIndex]. rewrite Ascii.eqb_refl.
  rewrite (countDigits_all _ _ A), (countDigits_endsSegment _ T), Nat.add_0_r.
  destruct s as [|c s]; [discriminate|].
  cbn [String.length append Js.drop]. rewrite JsFacts.drop_append.
  destruct T as [->|[r ->]]; trivial.
Qed.

Lemma matchIndex_name (s t : string) :
  isIndex s = false -> Js.hasChar "." s = false -> endsSegment t ->
  matchIndex (String "." (s ++ t)) = None.
Proof.
  intros I H T. cbn [matchIndex]. rewrite Ascii.eqb_refl.
  destruct (Nat.eq_dec (countDigits s) (String.length s)) as [A|A].
  - unfold isIndex in I. rewrite A, Nat.eqb_refl, andb_true_r in I.
    apply negb_false_iff, String.eqb_eq in I. subst s. cbn [append].
    now rewrite (countDigits_endsSegment _ T).
  - pose proof (countDigits_le s) as L.
    destruct (countDigits_stops s t) as [E [d [r [Dr [Nd In]]]]]; [lia|].
    rewrite E. destruct (countDigits s) as [|n] eqn:C; trivial.
    rewrite Dr. destruct (Ascii.eqb d ".") eqn:Dot; trivial.
    apply Ascii.eqb_eq in Dot. subst d. congruence.
Qed.

Lemma bracketIndexes_dotted (segments : list string) :
  Forall (fun s => Js.hasChar "." s = false) segments ->
  bracketIndexesFrom 0 (dotted segments)
  = String.concat "" (map renderSegment segments).
Proof.
  induction segments as [|s rest IH]; intros F; trivial.
  inversion F as [|? ? Hs Hrest]; subst. specialize (IH Hrest).
  rewrite dotted_cons.
  assert (C : String.concat "" (map renderSegment (s :: rest))
              = renderSegment s ++ String.concat "" (map renderSegment rest)).
  { cbn [map]. destruct (map renderSegment rest); simpl; trivial.
    now rewrite JsFacts.append_empty_r. }
  rewrite C. unfold renderSegment.
  change ("." ++ s ++ dotted rest) with (String "." (s ++ dotted rest)).
  cbn [bracketIndexesFrom].
  destruct (isIndex s) eqn:I.
  - rewrite (matchIndex_index _ _ I (dotted_endsSegment rest)).
    rewrite JsFacts.take_append, skip_match, IH.
    cbn [append]. now rewrite JsFacts.append_assoc.
  - rewrite (matchIndex_name _ _ I Hs (dotted_endsSegment rest)).
    rewrite (copy_without_dot _ _ Hs), IH. reflexivity.
Qed.

End PathFacts.

(** When no segment of the path holds a dot, the path text the extraction
    query escapes is [$] followed by the segments in order, a segment made
    of digits only as [[n]] and any other segment as [.name]; the query is
    [json_extract(column,path)] with the column quoted unless it is quoted
    already. *)
Theorem jsonPathExtractionQuery_path_text
        (escape : JsValue -> option AttributeObject -> EscapeOptions -> string)
        (isIdentifierQuoted : string -> bool) (Path : Type)
        (toPath : Path -> list string) (column : string) (path : Path) :
  Forall (fun segment => Js.hasChar "." segment = false) (toPath path) ->
  jsonPathExtractionQuery escape isIdentifierQuoted Path toPath column path
  = "json_extract("
    ++ (if isIdentifierQuoted column then column else quoteIdentifier column)
    ++ ","
    ++ escape
         (JsString
            ("$" ++ String.concat ""
                      (map IndexRegex.renderSegment (toPath path))))
         None (EscapeAttributes None)
    ++ ")".
Proof.
  intros F. unfold jsonPathExtractionQuery, IndexRegex.bracketIndexes.
  rewrite PathFacts.join_dotted.
  rewrite (PathFacts.copy_without_dot "$") by reflexivity.
  now rewrite (PathFacts.bracketIndexes_dotted _ F).
Qed.

Lemma jsonPathExtractionQuery_path_text_witness :
  jsonPathExtractionQuery Example.escape ExampleQueries.isIdentifierQuoted
    (list string) ExampleQueries.toPath "data" ["a"; "0"; "b"; "x1"; "12"]
  = "json_extract(`data`,'$.a[0].b.x1[12]')".
Proof.
  apply (jsonPathExtractionQuery_path_text Example.escape
           ExampleQueries.isIdentifierQuoted (list string)
           ExampleQueries.toPath "data" ["a"; "0"; "b"; "x1"; "12"]).
  repeat constructor.
Defined.

Lemma json_extract_is_function (r : string) (i : nat) :
  Js.indexOf r ")" = Some i ->
  exists matched, Regex.jsonFunctionRegex ("json_extract(" ++ r) = Some matched.
Proof.
  intros H.
  change (Regex.jsonFunctionRegex ("json_extract(" ++ r))
    with (match
             match Js.indexOf r ")" with
             | Some i => Some (S (S i))
             | None => None
             end
           with
           | Some a => Some (Js.take (0 + 4 + 8 + a) ("json_extract(" ++ r))
           | None => None
           end).
  rewrite H. now eexists.
Qed.

(** The query [jsonPathExtractionQuery] builds is always taken for a JSON
    function by the check: the answer is [true] or the error, never
    [false], whatever the column, the path and the escaping are. *)
Theorem jsonPathExtractionQuery_is_json_function
        (escape : JsValue -> option AttributeObject -> EscapeOptions -> string)
        (isIdentifierQuoted : string -> bool) (Path : Type)
        (toPath : Path -> list string) (column : string) (path : Path) :
  _checkValidJsonStatement
    (JsString
       (jsonPathExtractionQuery escape isIdentifierQuoted Path toPath
                                column path))
  <> Ok false.
Proof.
  unfold jsonPathExtractionQuery.
  set (q := if isIdentifierQuoted column then column else quoteIdentifier column).
  set (e := escape _ _ _).
  assert (O : Js.occurs ")" (q ++ "," ++ e ++ ")")).
  { exists (q ++ "," ++ e), "". now rewrite !JsFacts.append_assoc. }
  apply JsFacts.includes_occurs in O. unfold Js.includes in O.
  destruct (Js.indexOf (q ++ "," ++ e ++ ")") ")") as [i|] eqn:I;
    [|discriminate].
  destruct (json_extract_is_function _ _ I) as [matched F].
  destruct (check_of_function_core _ _ F) as [-> | ->]; discriminate.
Qed.

(** ** attributesToSQL *)

Lemma keys_objSet_in {A} (o : object A) (k x : string) (v : A) :
  In x (keys (objSet o k v)) <-> x = k \/ In x (keys o).
Proof.
  induction o as [|[k' v'] o IH]; cbn [objSet keys map fst].
  - simpl. intuition congruence.
  - destruct (String.eqb_spec k' k) as [->|N]; cbn [keys map fst In].
    + fold (keys o). intuition congruence.
    + fold (keys (objSet o k v)) (keys o). rewrite IH. intuition congruence.
Qed.

Lemma NoDup_objSet {A} (o : object A) (k : string) (v : A) :
  NoDup (keys o) -> NoDup (keys (objSet o k v)).
Proof.
  induction o as [|[k' v'] o IH]; cbn [objSet keys map fst]; intros N.
  - repeat constructor. intros [].
  - fold (keys o) in N. inversion N as [|? ? N1 N2]; subst.
    destruct (String.eqb_spec k' k) as [->|D]; cbn [keys map fst].
    + now constructor.
    + fold (keys (objSet o k v)). constructor; [|now apply IH].
      rewrite keys_objSet_in. intros [E|I]; [congruence | contradiction].
Qed.

Section AttributesToSQL.

Variable quoteTable : TableName -> string.
Variable escape : JsValue -> option AttributeObject -> EscapeOptions -> string.
Variable defaultValueSchemable : JsValue -> bool.
Variable toUpperCase : string -> string.

Local Abbreviation toSQL :=
  (attributesToSQL quoteTable escape defaultValueSchemable toUpperCase).
Local Abbreviation addSql :=
  (addAttributeSql quoteTable escape defaultValueSchemable toUpperCase).
Local Abbreviation attributeText :=
  (attributeSql quoteTable escape defaultValueSchemable toUpperCase).

Lemma addAttributeSql_objSet (context : option string) (acc : object string)
      (entry : string * Attribute) :
  exists sql, addSql context acc entry = objSet acc (columnName entry) sql.
Proof.
  destruct entry as [name [sql|o]]; unfold addAttributeSql, columnName;
    cbn [fst snd]; now eexists.
Qed.

Lemma attributesToSQL_fold_keys (context : option string)
      (attributes : object Attribute) (acc : object string) :
  NoDup (keys acc) ->
  NoDup (keys (fold_left (addSql context) attributes acc))
  /\ forall k, In k (keys (fold_left (addSql context) attributes acc))
               <-> In k (keys acc) \/ In k (map columnName attributes).
Proof.
  revert acc; induction attributes as [|entry rest IH]; intros acc N.
  - cbn. split; trivial. intros k. tauto.
  - cbn [fold_left map].
    destruct (addAttributeSql_objSet context acc entry) as [sql ->].
    destruct (IH (objSet acc (columnName entry) sql)) as [N' I'];
      [now apply NoDup_objSet|].
    split; trivial. intros k. rewrite I', keys_objSet_in.
    cbn [In]. intuition congruence.
Qed.


End AttributesToSQL.

(** ** Keys built by attributesToSQL *)

Section KeyDefinitions.

Variable quoteTable : TableName -> string.
Variable escape : JsValue -> option AttributeObject -> EscapeOptions -> string.
Variable defaultValueSchemable : JsValue -> bool.
Variable toUpperCase : string -> string.

Local Abbreviation attributeText :=
  (attributeSql quoteTable escape defaultValueSchemable toUpperCase).
Local Abbreviation before := (beforeMarker escape defaultValueSchemable).
Local Abbreviation after := (afterMarker quoteTable toUpperCase).

Lemma attributeSql_of_key (o : AttributeObject) (context : option string) :
  primaryKey o = true ->
  attributeText o context
  = before o context ++ " PRIMARY KEY" ++ after o.
Proof.
  intros K. unfold attributeSql, beforeMarker, afterMarker. rewrite K.
  repeat rewrite JsFacts.append_assoc. reflexivity.
Qed.

Lemma no_spaced_marker_before (pre post : string) :
  ~ Js.occurs "PRIMARY KEY" (pre ++ post) ->
  ~ Js.occurs " PRIMARY KEY" (pre ++ Js.withoutLast " PRIMARY KEY").
Proof.
  intros N O.
  apply Occurrences.occurs_append_closed in O as [O|O]; [| |reflexivity].
  - apply N. apply JsFacts.occurs_append_l.
    destruct O as [a [b ->]]. exists (a ++ " "), b.
    now rewrite JsFacts.append_assoc.
  - apply JsFacts.includes_occurs in O. discriminate.
Qed.


End KeyDefinitions.


(** ** Tables with at most one key *)

(** With at most one marked definition no table constraint is written:
    the statement is the boolean-default pass applied to
    [CREATE TABLE IF NOT EXISTS table (columns);], also for no attribute at
    all (an empty column list, no error).  A marked definition that holds
    INT anywhere is replaced by INTEGER PRIMARY KEY, followed by
    AUTOINCREMENT when the definition holds it and by the definition from
    its first [ REFERENCES] on; its length, UNSIGNED or NOT NULL are
    dropped.  Any other definition is written as it is. *)
Theorem createTableQuery_single_key_inline
        (quoteTable : TableName -> string) (name : TableName)
        (attributes : object string) :
  List.length (primaryKeyNames attributes) <= 1 ->
  createTableQuery quoteTable name attributes
  = replaceBooleanDefaults
      ("CREATE TABLE IF NOT EXISTS " ++ quoteTable name ++ " ("
       ++ Js.join ", " (map (columnSql false) attributes) ++ ");")
  /\ forall dataType,
       dataTypeString false dataType
       = if Js.includes dataType "PRIMARY KEY" && Js.includes dataType "INT"
         then "INTEGER PRIMARY KEY"
              ++ (if Js.includes dataType "AUTOINCREMENT"
                  then " AUTOINCREMENT" else "")
              ++ match Js.indexOf dataType " REFERENCES" with
                 | Some i => Js.sliceFrom dataType i
                 | None => ""
                 end
         else dataType.
Proof.
  intros L. split.
  - unfold createTableQuery, createTableSql. rewrite tableParts_unfold.
    assert (N : needsMultiplePrimaryKeys attributes = false).
    { destruct (needsMultiplePrimaryKeys attributes) eqn:E; trivial.
      apply needsMultiple_iff in E. lia. }
    rewrite N. reflexivity.
  - intros dataType. unfold dataTypeString, Js.includes.
    destruct (Js.indexOf dataType "PRIMARY KEY"); trivial.
    destruct (Js.indexOf dataType "INT"); trivial. cbn [andb].
    destruct (Js.indexOf dataType "AUTOINCREMENT"),
             (Js.indexOf dataType " REFERENCES"); trivial.
Qed.

Lemma createTableQuery_single_key_inline_witness :
  List.length
    (primaryKeyNames
       [("id", "BIGINT(20) UNSIGNED NOT NULL PRIMARY KEY AUTOINCREMENT REFERENCES `o` (`id`)");
        ("n", "TEXT")]) <= 1
  /\ createTableQuery quoteTableModel (TableString "t")
       [("id", "BIGINT(20) UNSIGNED NOT NULL PRIMARY KEY AUTOINCREMENT REFERENCES `o` (`id`)");
        ("n", "TEXT")]
     = "CREATE TABLE IF NOT EXISTS `t` (`id` INTEGER PRIMARY KEY AUTOINCREMENT REFERENCES `o` (`id`), `n` TEXT);".
Proof.
  split; [simpl; lia|].
  apply (createTableQuery_single_key_inline quoteTableModel (TableString "t")
           [("id", "BIGINT(20) UNSIGNED NOT NULL PRIMARY KEY AUTOINCREMENT REFERENCES `o` (`id`)");
            ("n", "TEXT")]).
  simpl; lia.
Defined.

(** ** Boolean defaults, again *)

Lemma unmatched_suffix (p : list Regex.item) (a t : string) :
  Regex.unmatched p (a ++ t) = true -> Regex.matchItems p t = None.
Proof.
  induction a as [|c a IH]; cbn [append].
  - destruct t; cbn [Regex.unmatched];
      destruct (Regex.matchItems p _); trivial; discriminate.
  - cbn [Regex.unmatched].
    destruct (Regex.matchItems p (String c (a ++ t))); [discriminate|].
    exact IH.
Qed.

Lemma unmatched_excludes (p : list Regex.item) (w s : string) :
  (forall b, Regex.matchItems p (w ++ b) <> None) ->
  Regex.unmatched p s = true -> Js.includes s w = false.
Proof.
  intros M U. apply JsFacts.not_includes. intros [a [b ->]].
  apply unmatched_suffix in U. now apply (M b).
Qed.

(** After the pass the statement holds no boolean default any more, in any
    of the forms the pass rewrites: neither [DEFAULT true] nor
    [DEFAULT 'true], neither [DEFAULT false] nor [DEFAULT 'false]. *)
Theorem replaceBooleanDefaults_leaves_no_boolean (sql : string) :
  Js.includes (replaceBooleanDefaults sql) "DEFAULT true" = false
  /\ Js.includes (replaceBooleanDefaults sql) "DEFAULT 'true" = false
  /\ Js.includes (replaceBooleanDefaults sql) "DEFAULT false" = false
  /\ Js.includes (replaceBooleanDefaults sql) "DEFAULT 'false" = false.
Proof.
  destruct (replaceBooleanDefaults_unmatched sql) as [F T].
  repeat split.
  - apply (unmatched_excludes Regex.defaultTrue); trivial.
    intros [|c b]; cbn; [discriminate|]. destruct (Ascii.eqb c "'"); discriminate.
  - apply (unmatched_excludes Regex.defaultTrue); trivial.
    intros [|c b]; cbn; [discriminate|]. destruct (Ascii.eqb c "'"); discriminate.
  - apply (unmatched_excludes Regex.defaultFalse); trivial.
    intros [|c b]; cbn; [discriminate|]. destruct (Ascii.eqb c "'"); discriminate.
  - apply (unmatched_excludes Regex.defaultFalse); trivial.
    intros [|c b]; cbn; [discriminate|]. destruct (Ascii.eqb c "'"); discriminate.
Qed.

(** ** Renaming to a column that is not there *)

(** When the new name is not among the columns of the attributes, the old
    name is not used at all: the first INSERT selects the columns as they
    are, and the statements are the same whatever the old name is. *)
Theorem renameColumnQuery_without_new_name
        (quoteTable : TableName -> string)
        (escape : JsValue -> option AttributeObject -> EscapeOptions -> string)
        (defaultValueSchemable : JsValue -> bool)
        (toUpperCase : string -> string) (name : TableName)
        (attrNameBefore attrNameAfter : string)
        (attributes : object Attribute) :
  existsb (String.eqb attrNameAfter)
          (keys (attributesToSQL quoteTable escape defaultValueSchemable
                                 toUpperCase attributes None)) = false ->
  map (importName attrNameBefore attrNameAfter)
      (keys (attributesToSQL quoteTable escape defaultValueSchemable
                             toUpperCase attributes None))
  = map quoteIdentifier
        (keys (attributesToSQL quoteTable escape defaultValueSchemable
                               toUpperCase attributes None))
  /\ forall other,
       renameColumnQuery quoteTable escape defaultValueSchemable toUpperCase
                         name attrNameBefore attrNameAfter attributes
       = renameColumnQuery quoteTable escape defaultValueSchemable toUpperCase
                           name other attrNameAfter attributes.
Proof.
  intros E.
  assert (M : forall before,
             map (importName before attrNameAfter)
                 (keys (attributesToSQL quoteTable escape defaultValueSchemable
                                        toUpperCase attributes None))
             = map quoteIdentifier
                   (keys (attributesToSQL quoteTable escape
                            defaultValueSchemable toUpperCase attributes None))).
  { intros before. apply map_ext_in. intros attr I. unfold importName.
    destruct (String.eqb attrNameAfter attr) eqn:A; trivial.
    assert (X : existsb (String.eqb attrNameAfter)
                  (keys (attributesToSQL quoteTable escape
                           defaultValueSchemable toUpperCase attributes None))
                = true)
      by (apply existsb_exists; now exists attr).
    congruence. }
  split; [apply M|].
  intros other. unfold renameColumnQuery. now rewrite !M.
Qed.

Lemma renameColumnQuery_without_new_name_witness :
  renameColumnQuery quoteTableModel Example.escape
    Example.defaultValueSchemable Example.toUpperCase (TableString "t")
    "a" "missing" [("b", AttributeSql "INTEGER"); ("c", AttributeSql "TEXT")]
  = renameColumnQuery quoteTableModel Example.escape
      Example.defaultValueSchemable Example.toUpperCase (TableString "t")
      "z" "missing" [("b", AttributeSql "INTEGER"); ("c", AttributeSql "TEXT")].
Proof.
  apply (renameColumnQuery_without_new_name quoteTableModel Example.escape
           Example.defaultValueSchemable Example.toUpperCase (TableString "t")
           "a" "missing"
           [("b", AttributeSql "INTEGER"); ("c", AttributeSql "TEXT")]).
  reflexivity.
Defined.

(** ** DELETE and UPDATE without a limit *)

Lemma trimEnd_blank (a : string) : trimEnd (a ++ " ") = trimEnd a.
Proof. induction a as [|c a IH]; cbn [append trimEnd]; [reflexivity | now rewrite IH]. Qed.

Lemma lastChar_after (a b : string) (c : ascii) :
  Js.lastChar b = Some c -> Js.lastChar (a ++ b) = Some c.
Proof.
  intros L. rewrite Occurrences.lastChar_suffix; trivial.
  intros ->. discriminate.
Qed.

Section WithoutLimit.

Variable quoteTable : TableName -> string.
Variable escape : JsValue -> option AttributeObject -> EscapeOptions -> string.
Variable Where : Type.
Variable Model : Type.
Variable getWhereConditions : Where -> option Model -> Options -> string.
Variable generatorOptions : Options.

Local Abbreviation delete :=
  (deleteQuery quoteTable escape Where Model getWhereConditions
               generatorOptions).

(** A limit that is falsy (0, null, or none at all) puts no subquery in the
    DELETE.  Without a condition the statement is [DELETE FROM table], the
    blank written before the empty condition being trimmed away: every row
    goes; with a condition it is [DELETE FROM table WHERE condition]. *)
Theorem deleteQuery_without_limit (name : TableName) (where_ : Where)
        (options : Options) (model_ : option Model) (c : ascii) :
  truthy (limit (defaults options generatorOptions)) = false ->
  Regex.isSpace c = false ->
  (getWhereConditions where_ model_ (defaults options generatorOptions) = "" ->
   Js.lastChar (quoteTable name) = Some c ->
   delete name where_ (Some options) model_
   = "DELETE FROM " ++ quoteTable name)
  /\ (getWhereConditions where_ model_ (defaults options generatorOptions)
      <> "" ->
      Js.lastChar
        (getWhereConditions where_ model_ (defaults options generatorOptions))
      = Some c ->
      delete name where_ (Some options) model_
      = "DELETE FROM " ++ quoteTable name ++ " WHERE "
        ++ getWhereConditions where_ model_
             (defaults options generatorOptions)).
Proof.
  intros T S. unfold deleteQuery. rewrite T. unfold deleteCondition, trim.
  generalize (getWhereConditions where_ model_
                (defaults options generatorOptions)).
  generalize (quoteTable name). intros q w. split.
  - intros -> L. cbn [String.eqb negb].
    change (trimStart ("DELETE FROM " ++ q ++ " " ++ ""))
      with ("DELETE FROM " ++ q ++ " ").
    rewrite <- JsFacts.append_assoc, trimEnd_blank.
    apply (trimEnd_fixed _ c); trivial. now apply lastChar_after.
  - intros N L. apply String.eqb_neq in N. rewrite N. cbn [negb].
    change (trimStart ("DELETE FROM " ++ q ++ " " ++ "WHERE " ++ w))
      with ("DELETE FROM " ++ q ++ " WHERE " ++ w).
    apply (trimEnd_fixed _ c); trivial.
    now repeat apply lastChar_after.
Qed.

End WithoutLimit.

Lemma deleteQuery_without_limit_witness :
  deleteQuery quoteTableModel Example.escape string unit
    Example.getWhereConditions Example.noOptions (TableString "users") ""
    (Some (mkOptions (JsNumber 0) BindParamUndefined JsUndefined JsUndefined))
    None
  = "DELETE FROM `users`".
Proof.
  apply (deleteQuery_without_limit quoteTableModel Example.escape string unit
           Example.getWhereConditions Example.noOptions (TableString "users")
           ""
           (mkOptions (JsNumber 0) BindParamUndefined JsUndefined JsUndefined)
           None "`"%char); reflexivity.
Defined.

(** ** UPDATE without bound parameters *)

Section WithoutBinding.

Variable quoteTable : TableName -> string.
Variable escape : JsValue -> option AttributeObject -> EscapeOptions -> string.
Variable removeNullishValuesFromHash :
  object JsValue -> JsValue -> Options -> object JsValue.
Variable Where : Type.
Variable whereQuery : Where -> Options -> Bind -> string * Bind.
Variable generatorOptions : Options.

Lemma assignments_without_binding
      (format : JsValue -> option AttributeObject -> JsValue -> Binder -> Bind
                -> string * Bind)
      (binder : Binder) (options : Options)
      (attributeMap : object AttributeObject) (hash : object JsValue)
      (assignments : list string) (store : Bind) :
  bindParam options = BindParamFalse ->
  fold_left (pushAssignment escape format options binder attributeMap) hash
            (assignments, store)
  = (List.app assignments
       (map (fun entry =>
               quoteIdentifier (fst entry) ++ "="
               ++ escape (snd entry) (objGet attributeMap (fst entry))
                    (EscapeUpdate (replacements options)))
            hash),
     store).
Proof.
  intros B. revert assignments.
  induction hash as [|[k v] hash IH]; intros assignments.
  - cbn. now rewrite app_nil_r.
  - cbn [fold_left map fst snd]. unfold pushAssignment at 2.
    rewrite B, orb_true_r, IH, <- app_assoc. reflexivity.
Qed.

(** With [bindParam: false] nothing is bound: the result has no [bind],
    and neither [format] nor the default binder has any part in the result
    (every assignment is [key=escape(value)], as the lemma before shows). *)
Theorem updateQuery_without_binding
        (format format' :
           JsValue -> option AttributeObject -> JsValue -> Binder -> Bind
           -> string * Bind)
        (binder binder' : Binder) (name : TableName)
        (attrValueHash : object JsValue) (where_ : Where) (options : Options)
        (attributes : option (object AttributeObject)) :
  bindParam options = BindParamFalse ->
  bind (updateQuery quoteTable escape format removeNullishValuesFromHash
                    binder Where whereQuery generatorOptions name
                    attrValueHash where_ (Some options) attributes)
  = None
  /\ updateQuery quoteTable escape format removeNullishValuesFromHash binder
                 Where whereQuery generatorOptions name attrValueHash where_
                 (Some options) attributes
     = updateQuery quoteTable escape format' removeNullishValuesFromHash
                   binder' Where whereQuery generatorOptions name
                   attrValueHash where_ (Some options) attributes.
Proof.
  intros B.
  assert (B' : bindParam (defaults options generatorOptions) = BindParamFalse)
    by (unfold defaults; cbn [bindParam]; now rewrite B).
  unfold updateQuery. rewrite B'.
  rewrite !(assignments_without_binding _ _ _ _ _ _ _ B').
  destruct (whereQuery _ _ _) as [condition store]. cbn [bind]. now split.
Qed.

End WithoutBinding.

Lemma updateQuery_without_binding_witness :
  bind
    (updateQuery quoteTableModel Example.escape Example.format
       Example.removeNullishValuesFromHash Example.binder string
       Example.whereQuery Example.noOptions (TableString "users")
       [("name", JsString "x"); ("age", JsNumber 3)] "`id` = 3"
       (Some (mkOptions JsUndefined BindParamFalse JsUndefined JsUndefined))
       None)
  = None.
Proof.
  apply (updateQuery_without_binding quoteTableModel Example.escape
           Example.removeNullishValuesFromHash string Example.whereQuery
           Example.noOptions Example.format Example.format Example.binder
           Example.binder (TableString "users")
           [("name", JsString "x"); ("age", JsNumber 3)] "`id` = 3"
           (mkOptions JsUndefined BindParamFalse JsUndefined JsUndefined)
           None).
  reflexivity.
Defined.

Example update_without_binding_example :
  updateQuery quoteTableModel Example.escape Example.format
    Example.removeNullishValuesFromHash Example.binder string
    Example.whereQuery Example.noOptions (TableString "users")
    [("name", JsString "x"); ("age", JsNumber 3)] "`id` = 3"
    (Some (mkOptions JsUndefined BindParamFalse JsUndefined JsUndefined))
    None
  = mkUpdateResult "UPDATE `users` SET `name`='x',`age`=3 WHERE `id` = 3" None.
Proof. reflexivity. Qed.

(** ** ADD COLUMN *)

Section AddColumn.

Variable quoteTable : TableName -> string.
Variable escape : JsValue -> option AttributeObject -> EscapeOptions -> string.
Variable defaultValueSchemable : JsValue -> bool.
Variable toUpperCase : string -> string.

Local Abbreviation addColumn :=
  (addColumnQuery quoteTable escape defaultValueSchemable toUpperCase).


End AddColumn.

